(** * typer-cli frequency scripts: normalisation, validation, emission

    A shallow embedding of the three generator scripts

      - [scripts/fetch_common_words.py]  (module [FetchCommonWords])
      - [scripts/generate_trigrams.py]   (module [GenerateTrigrams])
      - [scripts/update_bigrams.py]      (module [UpdateBigrams])

    Python values are modelled as follows.

      - [int] is [Z].
      - [float] is an IEEE 754 binary64 number, [spec_float] of the
        standard library with [prec = 53] and [emax = 1024]; the
        arithmetic is [SFdiv], [SFmul] and [SFsub], which round to nearest,
        ties to even, as CPython's C doubles do.
      - [str] is [string]; a character is a code point below 256
        (Latin-1), which is closed under [str.lower].
      - [dict] is a [gmap]; [list] is [list].
      - an exception is a [Raise] in the [result] type.
      - [print] appends an [event] to a log; [date.today()] is an explicit
        argument. *)

From Stdlib Require Import ZArith Lia Bool Ascii DecimalString.
From Stdlib Require Import Floats.SpecFloat.
From stdpp Require Import gmap strings list.

Open Scope string_scope.
Open Scope Z_scope.

(** ** Exceptions *)

Inductive exn := ZeroDivisionError | OverflowError | IndexError.

Inductive result (A : Type) :=
| Ok (a : A)
| Raise (e : exn).
Arguments Ok {A} a.
Arguments Raise {A} e.

#[global] Instance result_ret : MRet result := fun A a => Ok a.

#[global] Instance result_bind : MBind result := fun A B k r =>
  match r with
  | Ok a => k a
  | Raise e => Raise e
  end.

(** A [for] loop that appends one value per element, stopping at the first
    exception. *)
Fixpoint for_each {A B} (body : A -> result B) (l : list A) : result (list B) :=
  match l with
  | [] => Ok []
  | a :: l' => b ← body a; bs ← for_each body l'; Ok (b :: bs)
  end.

(** [enumerate(l)], counting from [i]. *)
Fixpoint enumerate_from {A} (i : Z) (l : list A) : list (Z * A) :=
  match l with
  | [] => []
  | a :: l' => (i, a) :: enumerate_from (i + 1) l'
  end.

Definition enumerate {A} (l : list A) : list (Z * A) := enumerate_from 0 l.

(** [l[:n]]: the first [n] elements, or all but the last [-n] when [n] is
    negative. *)
Definition slice_to {A} (l : list A) (n : Z) : list A :=
  if 0 <=? n then take (Z.to_nat n) l
  else take (Z.to_nat (Z.of_nat (length l) + n)) l.

(** [l[i]]: counted from the end when [i] is negative, an IndexError
    outside the list. *)
Definition item {A} (l : list A) (i : Z) : result A :=
  let n := Z.of_nat (length l) in
  let k := if 0 <=? i then i else n + i in
  if (0 <=? k) && (k <? n)
  then match l !! Z.to_nat k with
       | Some a => Ok a
       | None => Raise IndexError
       end
  else Raise IndexError.

(** ** Floats *)

Module PyFloat.

Definition float := spec_float.
Definition prec : Z := 53.
Definition emax : Z := 1024.

(** A Python int as an operand of true division: the significand is the
    integer itself, not yet rounded. *)
Definition of_int (z : Z) : float :=
  match z with
  | Z0 => S754_zero false
  | Zpos p => S754_finite false p 0
  | Zneg p => S754_finite true p 0
  end.

Definition mul (x y : float) : float := SFmul prec emax x y.
Definition sub (x y : float) : float := SFsub prec emax x y.

(** [a / b] on ints: the exact quotient, rounded once. *)
Definition int_true_div (a b : Z) : result float :=
  if b =? 0 then Raise ZeroDivisionError
  else match SFdiv prec emax (of_int a) (of_int b) with
       | S754_infinity _ => Raise OverflowError
       | q => Ok q
       end.

(** A decimal literal [n / 10^k] read by the parser: the nearest double. *)
Definition literal (n : Z) (pow10 : Z) : float :=
  SFdiv prec emax (of_int n) (of_int pow10).

Definition f1_00 : float := Eval vm_compute in literal 100 100.
Definition f0_30 : float := Eval vm_compute in literal 30 100.
Definition f0_70 : float := Eval vm_compute in literal 70 100.
Definition f0_85 : float := Eval vm_compute in literal 85 100.

(** Nearest integer to [n / d], ties to the even one ([0 <= n], [0 < d]). *)
Definition round_half_even_div (n d : Z) : Z :=
  let q := n / d in
  match 2 * (n mod d) ?= d with
  | Lt => q
  | Gt => q + 1
  | Eq => if Z.even q then q else q + 1
  end.

(** The magnitude [m * 2^e], multiplied by [10^nd] and rounded to an
    integer: the digits that [round(x, nd)] and [format(x, '.<nd>f')]
    keep. *)
Definition decimal_digits (m : positive) (e : Z) (nd : Z) : Z :=
  if 0 <=? e then Zpos m * 2 ^ e * 10 ^ nd
  else round_half_even_div (Zpos m * 10 ^ nd) (2 ^ (- e)).

(** [round(x, nd)] for [0 <= nd]: the decimal with [nd] places nearest to
    the exact value of [x], converted back to the nearest double. *)
Definition round (x : float) (nd : Z) : float :=
  match x with
  | S754_finite s m e =>
      match decimal_digits m e nd with
      | Zpos k => SFdiv prec emax (S754_finite s k 0) (of_int (10 ^ nd))
      | _ => S754_zero s
      end
  | _ => x
  end.

Definition string_of_nonneg (z : Z) : string :=
  NilZero.string_of_uint (N.to_uint (Z.to_N z)).

(** [str(z).rjust(width, '0')] for [0 <= z]. *)
Definition zero_pad (width : nat) (z : Z) : string :=
  let s := string_of_nonneg z in
  String.concat EmptyString (replicate (width - String.length s) "0") +:+ s.

Definition sign_prefix (s : bool) : string := if s then "-" else EmptyString.

Definition fixed_point (s : bool) (k : Z) (nd : Z) : string :=
  sign_prefix s +:+ string_of_nonneg (k / 10 ^ nd) +:+ "." +:+
  zero_pad (Z.to_nat nd) (k mod 10 ^ nd).

(** [format(x, '.<nd>f')] for [0 < nd]. *)
Definition format_f (x : float) (nd : Z) : string :=
  match x with
  | S754_nan => "nan"
  | S754_infinity s => sign_prefix s +:+ "inf"
  | S754_zero s => fixed_point s 0 nd
  | S754_finite s m e => fixed_point s (decimal_digits m e nd) nd
  end.

(** [x <= y] on floats. *)
Definition le (x y : float) : bool := SFleb x y.

End PyFloat.

(** ** Strings *)

Module PyStr.

Definition nl : string := String "010"%char EmptyString.
Definition dquote : string := String "034"%char EmptyString.
Definition backslash : string := String "092"%char EmptyString.

(** [str.lower] on one Latin-1 code point: A-Z and the accented capitals
    U+00C0..U+00DE (but not the multiplication sign U+00D7) move up by 32. *)
Definition lower_char (c : ascii) : ascii :=
  let n := N_of_ascii c in
  if ((65 <=? n) && (n <=? 90) || (192 <=? n) && (n <=? 222) && negb (n =? 215))%N
  then ascii_of_N (n + 32) else c.

(** [str.upper] on one Latin-1 code point whose capital is one Latin-1
    code point again.  The capital of the sharp s is two letters, see
    [capitalize]; those of the micro sign and of y with diaeresis are
    U+039C and U+0178, which no [string] of this model holds, so a text
    that starts with one of the two is outside the model of
    [capitalize]. *)
Definition upper_char (c : ascii) : ascii :=
  let n := N_of_ascii c in
  if ((97 <=? n) && (n <=? 122) || (224 <=? n) && (n <=? 254) && negb (n =? 247))%N
  then ascii_of_N (n - 32) else c.

Fixpoint lower (s : string) : string :=
  match s with
  | EmptyString => EmptyString
  | String c s' => String (lower_char c) (lower s')
  end.

(** [str.capitalize]: the first character in title case, the others in
    lower case; a leading sharp s becomes [Ss]. *)
Definition capitalize (s : string) : string :=
  match s with
  | EmptyString => EmptyString
  | String c s' =>
      if (N_of_ascii c =? 223)%N then "Ss" +:+ lower s'
      else String (upper_char c) (lower s')
  end.

(** [sub in s] *)
Fixpoint contains (sub s : string) : bool :=
  String.prefix sub s ||
  match s with
  | EmptyString => false
  | String _ s' => contains sub s'
  end.

(** [s.replace(old, new)] for a non-empty [old]: [skip] characters of an
    occurrence already replaced are still to be dropped. *)
Fixpoint replace_from (skip : nat) (old new s : string) : string :=
  match s with
  | EmptyString => EmptyString
  | String c s' =>
      match skip with
      | S k => replace_from k old new s'
      | O =>
          if String.prefix old s
          then new +:+ replace_from (String.length old - 1) old new s'
          else String c (replace_from 0 old new s')
      end
  end.

Fixpoint intersperse (new s : string) : string :=
  match s with
  | EmptyString => new
  | String c s' => new +:+ String c (intersperse new s')
  end.

Definition replace (s old new : string) : string :=
  match old with
  | EmptyString => intersperse new s
  | _ => replace_from 0 old new s
  end.

(** [sep.join(l)] *)
Definition join (sep : string) (l : list string) : string := String.concat sep l.

(** [str(z)] for an int. *)
Definition of_int (z : Z) : string := NilZero.string_of_int (Z.to_int z).

End PyStr.

(** ** [datetime.date] *)

Record date := { year : Z; month : Z; day : Z }.

(** [str(d)], the ISO form [YYYY-MM-DD]. *)
Definition isoformat (d : date) : string :=
  PyFloat.zero_pad 4 (year d) +:+ "-" +:+ PyFloat.zero_pad 2 (month d) +:+ "-" +:+
  PyFloat.zero_pad 2 (day d).

(** ** Printed output

    Only the prints that carry data are kept: a validation warning, the
    verdict of the validation, and a block of generated code.  The banners
    and the summary tables of the [main] functions are decoration; what a
    summary evaluates is kept where it can raise. *)

Inductive event :=
| Warning (example pattern : string)
| SomeInvalid
| AllValid
| Code (text : string).

(** ** scripts/fetch_common_words.py *)

Module FetchCommonWords.
Import PyFloat PyStr.

Definition WORD_COUNT : Z := 500.

Definition normalize_frequencies {F} (words : list (string * F))
  : result (list (string * F * float)) :=
  for_each (fun '(i, (word, freq)) =>
              q ← int_true_div i (WORD_COUNT - 1);
              let normalized := sub f1_00 (mul q f0_30) in
              Ok (word, freq, round normalized 3))
           (enumerate (slice_to words WORD_COUNT)).

Definition header (language : string) : string :=
  let source := if String.eqb language "english" then "COCA" else "Lexique 3.83" in
  "/// " +:+ capitalize language +:+ " common words (frequency-ordered)" +:+ nl +:+
  "///" +:+ nl +:+
  "/// Source: " +:+ source +:+ " corpus" +:+ nl +:+
  "/// Frequencies normalized to 0.70-1.00 range for typing practice" +:+ nl +:+
  "/// Top 500 words selected from corpus analysis" +:+ nl +:+
  "/// Last updated: 2025-12-30" +:+ nl +:+
  "pub fn " +:+ language +:+ "_words() -> Vec<Word> {" +:+ nl +:+
  "    vec![" +:+ nl.

Definition entry {F} (w : string * F * float) : string :=
  let '(word, _, freq) := w in
  let word_escaped := replace word dquote (backslash +:+ dquote) in
  "        Word::new(" +:+ dquote +:+ word_escaped +:+ dquote +:+ ", " +:+
  format_f freq 3 +:+ ")," +:+ nl.

Definition footer : string := "    ]" +:+ nl +:+ "}" +:+ nl +:+ nl.

Definition generate_rust_code {F} (language : string)
           (words : list (string * F * float)) : string :=
  fold_left (fun code w => code +:+ entry w) words (header language) +:+ footer.

(** The two tables are arguments.  Of the summary printed for each
    language the two subscripts [english[0][2]] and [english[-1][2]] of the
    frequency range are kept, since they raise on an empty list; the code
    of both languages is printed after them. *)
Definition main (ENGLISH_TOP_500 FRENCH_TOP_500 : list (string * Z))
  : result (list event) :=
  english ← normalize_frequencies ENGLISH_TOP_500;
  let english_code := generate_rust_code "english" english in
  _ ← item english 0;
  _ ← item english (-1);
  french ← normalize_frequencies FRENCH_TOP_500;
  let french_code := generate_rust_code "french" french in
  _ ← item french 0;
  _ ← item french (-1);
  Ok [Code english_code; Code french_code].

End FetchCommonWords.

(** ** scripts/generate_trigrams.py *)

Module GenerateTrigrams.
Import PyFloat PyStr.

Definition TRIGRAM_COUNT : Z := 20.

(** The loop state is the printed warnings and [all_valid]. *)
Definition validate_examples (pattern : string) (examples : list string)
  : list event * bool :=
  fold_left (fun '(log, all_valid) example =>
               if negb (contains (lower pattern) (lower example))
               then ((log ++ [Warning example pattern])%list, false)
               else (log, all_valid))
            examples ([], true).

Definition normalize_frequencies {F} (trigrams : list (string * F)) (count : Z)
  : result (list (string * F * float)) :=
  let selected := slice_to trigrams count in
  for_each (fun '(i, (trigram, freq)) =>
              q ← int_true_div i (count - 1);
              let normalized := sub f1_00 (mul q f0_30) in
              Ok (trigram, freq, round normalized 2))
           (enumerate selected).

Definition header (language : string) (today : date) : string :=
  let lang_name := capitalize language in
  let source := if String.eqb language "english" then "Peter Norvig"
                else "Lexique database & French corpus studies" in
  "/// " +:+ lang_name +:+ " language trigrams (frequency-ordered)" +:+ nl +:+
  "///" +:+ nl +:+
  "/// Source: " +:+ source +:+ nl +:+
  "/// Frequencies normalized to 0.70-1.00 range for typing practice" +:+ nl +:+
  "/// Top " +:+ of_int TRIGRAM_COUNT +:+ " trigrams selected from corpus analysis" +:+ nl +:+
  "/// Last updated: " +:+ isoformat today +:+ nl +:+
  "pub fn " +:+ language +:+ "_trigrams() -> Vec<Trigram> {" +:+ nl +:+
  "    vec![" +:+ nl.

(** [examples.get(trigram, ["example"] * 10)[:10]] *)
Definition example_list (examples : gmap string (list string)) (trigram : string)
  : list string :=
  take 10 (default (replicate 10 "example") (examples !! trigram)).

Definition entry (examples : gmap string (list string))
           (t : string * float * float) : string :=
  let '(trigram, corpus_freq, norm_freq) := t in
  let examples_str := join (dquote +:+ ", " +:+ dquote) (example_list examples trigram) in
  "        // Corpus: " +:+ format_f corpus_freq 2 +:+ "%" +:+ nl +:+
  "        Trigram::new(" +:+ dquote +:+ trigram +:+ dquote +:+ ", " +:+
  format_f norm_freq 2 +:+ ", &[" +:+ dquote +:+ examples_str +:+ dquote +:+ "])," +:+ nl.

Definition footer : string := "    ]" +:+ nl +:+ "}" +:+ nl.

Definition generate_rust_code (language : string)
           (trigrams : list (string * float * float))
           (examples : gmap string (list string)) (today : date) : string :=
  fold_left (fun code t => code +:+ entry examples t) trigrams (header language today)
  +:+ footer.

(** One of the two validation loops of [main]: the warnings it prints and
    the flag it leaves. *)
Definition validate_language (top : list (string * float))
           (examples_of : gmap string (list string)) : list event * bool :=
  fold_left (fun '(log, valid) '(trigram, _) =>
               let examples := default [] (examples_of !! trigram) in
               let '(warnings, ok) := validate_examples trigram examples in
               ((log ++ warnings)%list, if negb ok then false else valid))
            (slice_to top TRIGRAM_COUNT) ([], true).

(** The tables and the date are arguments; the result is everything
    printed and how the run ended. *)
Definition main (ENGLISH_TOP_20 FRENCH_TOP_20 : list (string * float))
           (ENGLISH_EXAMPLES FRENCH_EXAMPLES : gmap string (list string))
           (today : date) : list event * result unit :=
  let '(english_log, english_valid) := validate_language ENGLISH_TOP_20 ENGLISH_EXAMPLES in
  let '(french_log, french_valid) := validate_language FRENCH_TOP_20 FRENCH_EXAMPLES in
  let verdict := if negb (english_valid && french_valid) then SomeInvalid else AllValid in
  let log := (english_log ++ french_log ++ [verdict])%list in
  match normalize_frequencies ENGLISH_TOP_20 TRIGRAM_COUNT with
  | Raise e => (log, Raise e)
  | Ok english_normalized =>
      match normalize_frequencies FRENCH_TOP_20 TRIGRAM_COUNT with
      | Raise e => (log, Raise e)
      | Ok french_normalized =>
          ((log ++ [Code (generate_rust_code "english" english_normalized
                                             ENGLISH_EXAMPLES today);
                    Code (generate_rust_code "french" french_normalized
                                             FRENCH_EXAMPLES today)])%list,
           Ok tt)
      end
  end.

End GenerateTrigrams.

(** ** scripts/update_bigrams.py *)

Module UpdateBigrams.
Import PyFloat PyStr.

Definition BIGRAM_COUNT : Z := 40.

Definition normalize_frequencies {F} (bigrams : list (string * F)) (count : Z)
  : result (list (string * F * float)) :=
  let selected := slice_to bigrams count in
  for_each (fun '(i, (bigram, freq)) =>
              normalized ←
                (if 1 <? count
                 then q ← int_true_div i (count - 1); Ok (sub f1_00 (mul q f0_30))
                 else Ok f1_00);
              Ok (bigram, freq, round normalized 2))
           (enumerate selected).

Definition header (language : string) (n : nat) (source : string) (today : date)
  : string :=
  let func_name := lower language +:+ "_bigrams" in
  "/// " +:+ language +:+ " language bigrams (frequency-ordered)" +:+ nl +:+
  "///" +:+ nl +:+
  "/// Source: " +:+ source +:+ nl +:+
  "/// Frequencies normalized to 0.70-1.00 range for typing practice" +:+ nl +:+
  "/// Top " +:+ of_int (Z.of_nat n) +:+
  " bigrams selected from top 100 corpus analysis" +:+ nl +:+
  "/// Last updated: " +:+ isoformat today +:+ nl +:+
  "pub fn " +:+ func_name +:+ "() -> Vec<Bigram> {" +:+ nl +:+
  "    vec![" +:+ nl.

(** [[f"ex{i}" for i in range(10)]] *)
Definition placeholders : list string :=
  map (fun i => "ex" +:+ of_int (Z.of_nat i)) (seq 0 10).

(** [examples_dict.get(bigram, placeholders)[:10]] *)
Definition example_list (examples_dict : gmap string (list string)) (bigram : string)
  : list string :=
  take 10 (default placeholders (examples_dict !! bigram)).

Definition entry (examples_dict : gmap string (list string))
           (b : string * float * float) : string :=
  let '(bigram, corpus_freq, normalized) := b in
  let examples_str := join (dquote +:+ ", " +:+ dquote) (example_list examples_dict bigram) in
  "        // Corpus: " +:+ format_f corpus_freq 2 +:+ "%" +:+ nl +:+
  "        Bigram::new(" +:+ dquote +:+ bigram +:+ dquote +:+ ", " +:+
  format_f normalized 2 +:+ ", &[" +:+ dquote +:+ examples_str +:+ dquote +:+ "])," +:+ nl.

Definition footer : string := "    ]" +:+ nl +:+ "}" +:+ nl.

Definition generate_rust_function (language : string)
           (bigrams : list (string * float * float))
           (examples_dict : gmap string (list string)) (source : string)
           (today : date) : string :=
  fold_left (fun code b => code +:+ entry examples_dict b) bigrams
            (header language (length bigrams) source today)
  +:+ footer.

(** The tables and the date are arguments.  Nothing between the
    normalisation and the generation looks at the examples. *)
Definition main (ENGLISH_TOP_100 FRENCH_TOP_100 : list (string * float))
           (ENGLISH_EXAMPLES FRENCH_EXAMPLES : gmap string (list string))
           (today : date) : list event * result unit :=
  match normalize_frequencies ENGLISH_TOP_100 BIGRAM_COUNT with
  | Raise e => ([], Raise e)
  | Ok english_normalized =>
      match normalize_frequencies FRENCH_TOP_100 BIGRAM_COUNT with
      | Raise e => ([], Raise e)
      | Ok french_normalized =>
          ([Code (generate_rust_function "English" english_normalized ENGLISH_EXAMPLES
                    "Peter Norvig (http://norvig.com/mayzner.html)" today);
            Code (generate_rust_function "French" french_normalized FRENCH_EXAMPLES
                    "Lexique database & French corpus studies" today)],
           Ok tt)
      end
  end.

End UpdateBigrams.

(** ** Rounding, seen from the integers

    A non-negative double is the integer [scaled x] of units of the
    smallest subnormal, [2^-1074].  [Rounds N D v] says that [v] is the
    exact value [N / D] (in the same units) rounded to nearest-even at 53
    bits: [g] is the exponent of the last kept bit. *)

Module Rounding.
Import PyFloat.

Definition scaled (x : float) : Z :=
  match x with
  | S754_finite false m e => Zpos m * 2 ^ (e + 1074)
  | _ => 0
  end.

Definition nonneg_finite (x : float) : Prop :=
  match x with
  | S754_zero false => True
  | S754_finite false _ e => -1074 <= e
  | _ => False
  end.

Definition Rounds (N D v : Z) : Prop :=
  exists g, 0 <= g /\ N < D * 2 ^ (g + 53) /\ (g = 0 \/ D * 2 ^ (g + 52) <= N) /\
            v = round_half_even_div N (D * 2 ^ g) * 2 ^ g.

(** [l] places the fraction [yn / yd] inside the interval [m, m + 1). *)
Definition Loc (yn yd m : Z) (l : location) : Prop :=
  match l with
  | loc_Exact => yn = m * yd
  | loc_Inexact Lt => m * yd < yn /\ 2 * yn < (2 * m + 1) * yd
  | loc_Inexact Eq => 2 * yn = (2 * m + 1) * yd
  | loc_Inexact Gt => (2 * m + 1) * yd < 2 * yn /\ yn < (m + 1) * yd
  end.

Definition LocR (yn yd : Z) (mrs : shr_record) : Prop :=
  0 <= shr_m mrs /\ Loc yn yd (shr_m mrs) (loc_of_shr_record mrs).

End Rounding.

(** ** The weight of a rank

    The three normalisers compute the same expression; [quotient] is
    [i / (count - 1)] once the division is known not to raise. *)

Module Weight.
Import PyFloat.

Definition quotient (i c : Z) : float := SFdiv prec emax (of_int i) (of_int c).

(** [1.00 - q * 0.30] *)
Definition interpolate (q : float) : float := sub f1_00 (mul q f0_30).

Definition weight (nd i c : Z) : float := round (interpolate (quotient i c)) nd.

(** The decimal digits kept by [round]: the value times [10^nd], as an
  integer. *)
Definition digits (nd : Z) (x : float) : Z :=
round_half_even_div (10 ^ nd * Rounding.scaled x) (2 ^ 1074).

(** Every pair of decimals between [lo / 10^nd] and [hi / 10^nd] is read
  back as doubles in the same order. *)
Definition literals_ordered (nd lo hi : Z) : bool :=
forallb (fun k =>
           forallb (fun k' => if k' <=? k then le (literal k' (10 ^ nd)) (literal k (10 ^ nd))
                              else true)
                   (seqZ lo (hi - lo + 1)))
        (seqZ lo (hi - lo + 1)).

End Weight.

(** ** What the normalisers return, in closed form *)

(** The window [sel] with the weight of each rank, to [nd] places, for the
    divisor [c]. *)
Definition weights_of {F} (nd c : Z) (sel : list (string * F))
  : list (string * F * PyFloat.float) :=
  map (fun '(i, (unit, freq)) => (unit, freq, Weight.weight nd i c)) (enumerate sel).

(** The number of double quotes of [s] that no backslash precedes;
    [escaped] tells whether the previous character was a backslash. *)
Fixpoint unescaped_quotes (escaped : bool) (s : string) : nat :=
  match s with
  | EmptyString => 0
  | String c s' =>
      ((if (negb escaped && Ascii.eqb c "034")%bool then 1 else 0) +
       unescaped_quotes (Ascii.eqb c "092") s')%nat
  end.

(** Sample inputs. *)
Definition three_words : list (string * Z) := [("the", 100); ("of", 50); ("and", 10)].

Definition jan_7 : date := {| year := 2025; month := 1; day := 7 |}.

(** The examples of the bigram [et] in [FRENCH_EXAMPLES] of update_bigrams.py. *)
Definition et_examples : list string :=
  ["et"; "cette"; "mettre"; "sujet"; "petit"; "pouvoir"; "secret"; "complet"; "projet";
   "objet"].

(** The normalised window [r] has [n] entries; its first weight is [top]
    and its last is [bottom]. *)
Definition window_ends {F} (r : list (string * F * PyFloat.float)) (n : Z)
           (top bottom : PyFloat.float) : Prop :=
  length r = Z.to_nat n /\
  exists first_entry last_entry,
    r !! 0%nat = Some first_entry /\ first_entry.2 = top /\
    r !! Z.to_nat (n - 1) = Some last_entry /\ last_entry.2 = bottom.

(** The weights of a normalised list, as the emitters print them. *)
Definition printed_weights {F} (nd : Z) (r : list (string * F * PyFloat.float))
  : list string :=
  map (fun w => PyFloat.format_f w.2 nd) r.

(** The strings of [l], one after the other. *)
Definition flatten (l : list string) : string := foldr String.append EmptyString l.

(** What is printed before the code blocks of generate_trigrams.py: the
    warnings of both languages and the verdict. *)
Definition trigram_validation_log (english french : list (string * PyFloat.float))
           (english_examples french_examples : gmap string (list string)) : list event :=
  let '(english_log, english_valid) :=
    GenerateTrigrams.validate_language english english_examples in
  let '(french_log, french_valid) :=
    GenerateTrigrams.validate_language french french_examples in
  (english_log ++ french_log ++
   [if negb (english_valid && french_valid) then SomeInvalid else AllValid])%list.

(** The examples of [examples] that do not contain [pattern], whatever
    the case of the letters. *)
Definition containment_failures (pattern : string) (examples : list string) : list string :=
  List.filter (fun example => negb (PyStr.contains (PyStr.lower pattern) (PyStr.lower example)))
              examples.

(** Eleven examples for the trigram [the]; only the last one is wrong. *)
Definition eleven_examples : list string :=
  ["the"; "them"; "then"; "there"; "these"; "theme"; "theft"; "theory"; "therapy";
   "thermal"; "cat"].

(** A unit with a double quote in it. *)
Definition quoted_unit : string := "a" +:+ PyStr.dquote +:+ "b".

(** Every decimal between [lo / 10^nd] and [hi / 10^nd], read as a double
    and printed with [nd] places, gives its own digits back. *)
Definition literals_print_back (nd lo hi : Z) : bool :=
  forallb (fun k => String.eqb (PyFloat.format_f (PyFloat.literal k (10 ^ nd)) nd)
                               (PyFloat.fixed_point false k nd))
          (seqZ lo (hi - lo + 1)).

(** The unit and the raw frequency of a weighted entry. *)
Definition ranked_entry {F} (w : string * F * PyFloat.float) : string * F := w.1.

Definition is_warning (e : event) : bool :=
  match e with
  | Warning _ _ => true
  | _ => false
  end.

(** The examples that the line of [unit] is to carry: the first ten of
    those registered for it, or the placeholders when the ExampleSet has no
    entry for it. *)
Definition kept_examples (placeholders : list string)
           (examples : gmap string (list string)) (unit : string) : list string :=
  match examples !! unit with
  | Some registered => take 10 registered
  | None => placeholders
  end.

(** The two lines emitted for one n-gram: the comment with the corpus
    frequency and the constructor call with the unit, the weight and the
    examples between brackets. *)
Definition ngram_lines (constructor unit : string) (corpus_freq weight : PyFloat.float)
           (kept : list string) : string :=
  "        // Corpus: " +:+ PyFloat.format_f corpus_freq 2 +:+ "%" +:+ PyStr.nl +:+
  "        " +:+ constructor +:+ "::new(" +:+ PyStr.dquote +:+ unit +:+ PyStr.dquote +:+ ", "
  +:+ PyFloat.format_f weight 2 +:+ ", &[" +:+ PyStr.dquote +:+
  PyStr.join (PyStr.dquote +:+ ", " +:+ PyStr.dquote) kept +:+ PyStr.dquote +:+ "]),"
  +:+ PyStr.nl.

Definition ten_numbered_placeholders : list string :=
  ["ex0"; "ex1"; "ex2"; "ex3"; "ex4"; "ex5"; "ex6"; "ex7"; "ex8"; "ex9"].

(** The brackets around a single empty string, [&[""]]. *)
Definition one_empty_example : string :=
  "&[" +:+ PyStr.dquote +:+ PyStr.dquote +:+ "]".

(** Whether every double quote of [s] comes directly after a backslash;
    [after_backslash] tells whether the character before [s] was one. *)
Fixpoint quotes_follow_backslashes (after_backslash : bool) (s : string) : bool :=
  match s with
  | EmptyString => true
  | String c s' =>
      (negb (Ascii.eqb c "034") || after_backslash) &&
      quotes_follow_backslashes (Ascii.eqb c "092") s'
  end.

(** Whether [s] has a double quote. *)
Fixpoint has_quote (s : string) : bool :=
  match s with
  | EmptyString => false
  | String c s' => Ascii.eqb c "034" || has_quote s'
  end.

(** * Rounding to nearest-even, proved *)

(** Closes a comparison between two literal numbers. *)
Ltac by_computation :=
  vm_compute; first [reflexivity | discriminate | let H := fresh in intro H; discriminate H].

Section RoundHalfEven.
Import PyFloat.

Lemma rhe_bounds n d :
  0 < d ->
  2 * round_half_even_div n d * d - d <= 2 * n <= 2 * round_half_even_div n d * d + d.
Proof.
  intros Hd. unfold round_half_even_div.
  pose proof (Z.div_mod n d ltac:(lia)) as Hdm.
  pose proof (Z.mod_pos_bound n d Hd) as Hm.
  set (q := n / d) in *. set (r := n mod d) in *.
  destruct (Z.compare_spec (2 * r) d); [destruct (Z.even q) | |]; nia.
Qed.

Lemma rhe_tie n d m :
  0 < d -> 2 * n = (2 * m + 1) * d -> Z.even (round_half_even_div n d) = true.
Proof.
  intros Hd Hn. unfold round_half_even_div.
  pose proof (Z.div_mod n d ltac:(lia)) as Hdm.
  pose proof (Z.mod_pos_bound n d Hd) as Hm.
  set (q := n / d) in *. set (r := n mod d) in *.
  assert (q = m) by nia. subst m.
  destruct (Z.compare_spec (2 * r) d); [| nia | nia].
  destruct (Z.even q) eqn:He; [exact He |].
  rewrite Z.even_add, He. reflexivity.
Qed.

Lemma rhe_mono n d n' d' :
  0 < d -> 0 < d' -> n * d' <= n' * d ->
  round_half_even_div n d <= round_half_even_div n' d'.
Proof.
  intros Hd Hd' Hle.
  pose proof (rhe_bounds n d Hd) as [Hlo _].
  pose proof (rhe_bounds n' d' Hd') as [_ Hhi].
  destruct (Z_le_gt_dec (round_half_even_div n d) (round_half_even_div n' d')) as [|Hgt];
    [assumption | exfalso].
  set (q := round_half_even_div n d) in *.
  set (q' := round_half_even_div n' d') in *.
  assert (H1 : (2 * q' + 1) * d <= 2 * n) by nia.
  assert (H2 : 2 * n' <= (2 * q' + 1) * d') by nia.
  assert (H3 : 2 * n * d' = (2 * q' + 1) * d * d') by nia.
  assert (E1 : 2 * n = (2 * q' + 1) * d) by nia.
  assert (E2 : 2 * n' = (2 * q' + 1) * d') by nia.
  assert (Eq : q = q' + 1) by nia.
  pose proof (rhe_tie n d q' Hd E1) as Ev. fold q in Ev.
  pose proof (rhe_tie n' d' q' Hd' E2) as Ev'. fold q' in Ev'.
  rewrite Eq, Z.even_add, Ev' in Ev. discriminate.
Qed.

Lemma rhe_ratio n d n' d' :
  0 < d -> 0 < d' -> n * d' = n' * d ->
  round_half_even_div n d = round_half_even_div n' d'.
Proof.
  intros. apply Z.le_antisymm; apply rhe_mono; lia.
Qed.

Lemma rhe_exact n d : 0 < d -> round_half_even_div (n * d) d = n.
Proof.
  intros Hd. unfold round_half_even_div.
  rewrite Z.div_mul, Z.mod_mul by lia.
  destruct (Z.compare_spec (2 * 0) d); lia.
Qed.

Lemma rhe_ge n d a : 0 < d -> a * d <= n -> a <= round_half_even_div n d.
Proof.
  intros Hd H. rewrite <- (rhe_exact a d Hd). apply rhe_mono; nia.
Qed.

Lemma rhe_le n d a : 0 < d -> n <= a * d -> round_half_even_div n d <= a.
Proof.
  intros Hd H. rewrite <- (rhe_exact a d Hd). apply rhe_mono; nia.
Qed.
End RoundHalfEven.

Section RoundsZ.
Import PyFloat Rounding.

Lemma pow2_pos a : 0 <= a -> 0 < 2 ^ a.
Proof. intros. apply Z.pow_pos_nonneg; lia. Qed.

Lemma pow2_add a b : 0 <= a -> 0 <= b -> 2 ^ (a + b) = 2 ^ a * 2 ^ b.
Proof. intros. apply Z.pow_add_r; lia. Qed.

Lemma pow2_le a b : 0 <= a <= b -> 2 ^ a <= 2 ^ b.
Proof. intros. apply Z.pow_le_mono_r; lia. Qed.

Lemma pow2_lt_inv a b : 0 <= b -> 2 ^ a < 2 ^ b -> a < b.
Proof. intros Hb H. apply (Z.pow_lt_mono_r_iff 2); lia. Qed.

Lemma Rounds_mono N D v N' D' v' :
  0 < D -> 0 < D' -> 0 <= N ->
  Rounds N D v -> Rounds N' D' v' -> N * D' <= N' * D -> v <= v'.
Proof.
  intros HD HD' HN (g & Hg & Hup & Hlo & ->) (g' & Hg' & Hup' & Hlo' & ->) Hle.
  pose proof (pow2_pos g Hg) as HP. pose proof (pow2_pos g' Hg') as HP'.
  rewrite pow2_add in Hup, Hup' by lia.
  destruct (Z.lt_trichotomy g g') as [Hlt | [-> | Hgt]].
  - (* the binade of [N'/D'] is higher: a power of two lies in between *)
    destruct Hlo' as [-> | Hlo']; [lia |].
    rewrite pow2_add in Hlo' by lia.
    assert (Hr : round_half_even_div N (D * 2 ^ g) <= 2 ^ 53) by (apply rhe_le; nia).
    assert (Hr' : 2 ^ 52 <= round_half_even_div N' (D' * 2 ^ g'))
      by (apply rhe_ge; nia).
    assert (Hpp : 2 * 2 ^ g <= 2 ^ g').
    { replace g' with (1 + g + (g' - g - 1)) by lia.
      rewrite !pow2_add by lia. pose proof (pow2_pos (g' - g - 1)). change (2 ^ 1) with 2. nia. }
    change (2 ^ 53) with (2 * 2 ^ 52) in Hr.
    assert (0 < 2 ^ 52) by reflexivity.
    nia.
  - apply Z.mul_le_mono_nonneg_r; [lia |]. apply rhe_mono; nia.
  - exfalso. destruct Hlo as [-> | Hlo]; [lia |].
    rewrite pow2_add in Hlo by lia.
    assert (Hpp : 2 * 2 ^ g' <= 2 ^ g).
    { replace g with (1 + g' + (g - g' - 1)) by lia.
      rewrite !pow2_add by lia. pose proof (pow2_pos (g - g' - 1)). change (2 ^ 1) with 2. nia. }
    change (2 ^ 53) with (2 * 2 ^ 52) in Hup'.
    assert (0 < 2 ^ 52) by reflexivity.
    assert (N' * D < D' * (2 ^ g * 2 ^ 52) * D) by nia.
    nia.
Qed.

Lemma Rounds_nonneg N D v : 0 < D -> 0 <= N -> Rounds N D v -> 0 <= v.
Proof.
  intros HD HN (g & Hg & _ & _ & ->). pose proof (pow2_pos g Hg).
  apply Z.mul_nonneg_nonneg; [| lia]. apply rhe_ge; nia.
Qed.

Lemma Rounds_zero D : 0 < D -> Rounds 0 D 0.
Proof.
  intros HD. exists 0. repeat split; try lia.
  unfold round_half_even_div. rewrite Z.div_0_l, Z.mod_0_l by lia.
  destruct (Z.compare_spec (2 * 0) (D * 2 ^ 0)); lia.
Qed.
End RoundsZ.

Section ShiftRight.
Import PyFloat Rounding.

Lemma digits2_pos_bounds p :
  2 ^ (Zpos (digits2_pos p) - 1) <= Zpos p < 2 ^ Zpos (digits2_pos p).
Proof.
  induction p as [p IH | p IH |]; simpl digits2_pos.
  - rewrite Pos2Z.inj_succ, (Pos2Z.inj_xI p).
    replace (Z.succ (Zpos (digits2_pos p)) - 1) with (1 + (Zpos (digits2_pos p) - 1)) by lia.
    unfold Z.succ. rewrite (Z.add_comm _ 1), !pow2_add by lia. change (2 ^ 1) with 2. lia.
  - rewrite Pos2Z.inj_succ, (Pos2Z.inj_xO p).
    replace (Z.succ (Zpos (digits2_pos p)) - 1) with (1 + (Zpos (digits2_pos p) - 1)) by lia.
    unfold Z.succ. rewrite (Z.add_comm _ 1), !pow2_add by lia. change (2 ^ 1) with 2. lia.
  - change (1 <= 1 < 2). lia.
Qed.

Lemma Zdigits2_bounds m :
  0 < m -> 0 < Zdigits2 m /\ 2 ^ (Zdigits2 m - 1) <= m < 2 ^ Zdigits2 m.
Proof.
  destruct m as [| p | p]; try lia. intros _. simpl. split; [lia | apply digits2_pos_bounds].
Qed.

Lemma shr_1_LocR yn yd mrs :
  0 < yd -> LocR yn yd mrs -> LocR yn (2 * yd) (shr_1 mrs).
Proof.
  intros Hd [Hm HL]. destruct mrs as [m r s]. unfold LocR.
  cbn [shr_m loc_of_shr_record] in Hm, HL.
  destruct m as [| [p | p |] | p]; [| | | | exfalso; lia];
    destruct r, s;
    cbn [shr_1 orb shr_m loc_of_shr_record Loc] in HL |- *;
    try rewrite (Pos2Z.inj_xI p) in HL; try rewrite (Pos2Z.inj_xO p) in HL;
    (split; [lia | try split; lia]).
Qed.

Lemma iter_pos_shr_1_LocR n : forall yn yd mrs,
  0 < yd -> LocR yn yd mrs -> LocR yn (yd * 2 ^ Zpos n) (SpecFloat.iter_pos shr_1 n mrs).
Proof.
  induction n as [n IH | n IH |]; intros yn yd mrs Hd H; simpl SpecFloat.iter_pos.
  - apply shr_1_LocR in H; [| lia]. apply IH in H; [| lia].
    assert (0 < 2 ^ Zpos n) by (apply pow2_pos; lia).
    apply IH in H; [| nia].
    rewrite (Pos2Z.inj_xI n). replace (2 * Zpos n + 1) with (1 + Zpos n + Zpos n) by lia.
    rewrite !pow2_add by lia. change (2 ^ 1) with 2.
    replace (yd * (2 * 2 ^ Zpos n * 2 ^ Zpos n)) with (2 * yd * 2 ^ Zpos n * 2 ^ Zpos n) by ring.
    exact H.
  - apply IH in H; [| lia].
    assert (0 < 2 ^ Zpos n) by (apply pow2_pos; lia).
    apply IH in H; [| nia].
    rewrite (Pos2Z.inj_xO n). replace (2 * Zpos n) with (Zpos n + Zpos n) by lia.
    rewrite !pow2_add by lia.
    replace (yd * (2 ^ Zpos n * 2 ^ Zpos n)) with (yd * 2 ^ Zpos n * 2 ^ Zpos n) by ring.
    exact H.
  - apply shr_1_LocR in H; [| lia]. change (2 ^ 1) with 2.
    replace (yd * 2) with (2 * yd) by ring. exact H.
Qed.

Lemma shr_LocR mrs e n yn yd :
  0 <= n -> 0 < yd -> LocR yn yd mrs ->
  snd (shr mrs e n) = e + n /\ LocR yn (yd * 2 ^ n) (fst (shr mrs e n)).
Proof.
  intros Hn Hd H. destruct n as [| n | n]; try lia; simpl.
  - split; [lia |]. rewrite Z.mul_1_r. exact H.
  - split; [reflexivity |]. apply iter_pos_shr_1_LocR; assumption.
Qed.

Lemma shr_record_of_loc_LocR yn yd m l :
  0 <= m -> Loc yn yd m l -> LocR yn yd (shr_record_of_loc m l).
Proof.
  intros Hm HL. split; destruct l as [| []]; simpl; assumption.
Qed.

Lemma round_nearest_even_Loc yn yd m l :
  0 < yd -> Loc yn yd m l -> round_nearest_even m l = round_half_even_div yn yd.
Proof.
  intros Hd HL. unfold round_half_even_div.
  assert (Hq : yn / yd = m) by (symmetry; apply (Z.div_unique_pos yn yd m (yn - m * yd));
                                destruct l as [| []]; simpl in HL; lia).
  pose proof (Z.div_mod yn yd ltac:(lia)) as Hdm. rewrite Hq in *.
  destruct l as [| []]; simpl in *;
    destruct (Z.compare_spec (2 * (yn mod yd)) yd); try lia; reflexivity.
Qed.
End ShiftRight.

Section RoundAux.
Import PyFloat Rounding.

Lemma fexp_eq e : fexp prec emax e = Z.max (e - 53) (-1074).
Proof. reflexivity. Qed.

Lemma shr_nonpos mrs e n : n <= 0 -> shr mrs e n = (mrs, e).
Proof. destruct n; [reflexivity | lia | reflexivity]. Qed.

Lemma binary_round_aux_Rounds mx ex lx yn yd N D p q :
  0 <= mx -> 0 < yd -> 0 < D -> Loc yn yd mx lx ->
  ex <= fexp prec emax (Zdigits2 mx + ex) ->
  0 <= p -> 0 <= q -> ex + 1074 = p - q ->
  yn * 2 ^ p * D = N * yd * 2 ^ q ->
  N < D * 2 ^ 2097 ->
  nonneg_finite (binary_round_aux prec emax false mx ex lx) /\
  Rounds N D (scaled (binary_round_aux prec emax false mx ex lx)).
Proof.
  intros Hmx Hyd HD HL Hprec Hp Hq Hpq Hlink Hbig.
  unfold binary_round_aux, shr_fexp.
  set (E := fexp prec emax (Zdigits2 mx + ex)) in *.
  assert (HE : -1074 <= E) by (unfold E; rewrite fexp_eq; lia).
  destruct (shr_LocR (shr_record_of_loc mx lx) ex (E - ex) yn yd) as [He1 [Hm1 HL1]];
    [lia | assumption | apply shr_record_of_loc_LocR; assumption |].
  destruct (shr (shr_record_of_loc mx lx) ex (E - ex)) as [mrs1 e1].
  cbn [fst snd] in He1, Hm1, HL1.
  replace (ex + (E - ex)) with E in He1 by lia. subst e1.
  set (n := E - ex) in *.
  pose proof (pow2_pos n ltac:(lia)) as Hn2.
  pose proof (pow2_pos p Hp) as Hp2. pose proof (pow2_pos q Hq) as Hq2.
  rewrite (round_nearest_even_Loc yn (yd * 2 ^ n)) by (assumption || nia).
  set (m1 := round_half_even_div yn (yd * 2 ^ n)).
  (* the interval of [yn / yd], from the digits of [mx] *)
  assert (Hyn : mx * yd <= yn < (mx + 1) * yd)
    by (destruct lx as [| []]; simpl in HL; lia).
  assert (Hdg : 0 <= Zdigits2 mx /\ mx + 1 <= 2 ^ Zdigits2 mx /\
                (mx = 0 /\ E = -1074 \/ 0 < mx /\ 0 < Zdigits2 mx /\ 2 ^ (Zdigits2 mx - 1) <= mx)).
  { destruct (Z.eq_dec mx 0) as [-> | Hne].
    - simpl. repeat split; try lia. left. split; [reflexivity |].
      unfold E in *. simpl Zdigits2 in *. rewrite fexp_eq in *. lia.
    - destruct (Zdigits2_bounds mx ltac:(lia)) as (? & ? & ?). repeat split; try lia. }
  destruct Hdg as (Hdg0 & Hdgu & Hdgl).
  assert (Hn53 : Zdigits2 mx <= n + 53) by (unfold n, E; rewrite fexp_eq; lia).
  assert (Hup : yn < yd * 2 ^ n * 2 ^ 53).
  { pose proof (pow2_le (Zdigits2 mx) (n + 53) ltac:(lia)) as Hle.
    rewrite pow2_add in Hle by lia. nia. }
  assert (Hm1r : 0 <= m1 <= 2 ^ 53).
  { split; [apply rhe_ge; nia | apply rhe_le; nia]. }
  (* no overflow *)
  assert (HE970 : E <= 970).
  { destruct Hdgl as [[_ ->] | (Hpos & Hdpos & Hlow)]; [lia |].
    assert (Hlt : 2 ^ (Zdigits2 mx - 1 + p) < 2 ^ (2097 + q)).
    { rewrite !pow2_add by lia.
      assert (Ha : 2 ^ (Zdigits2 mx - 1) * yd <= yn) by nia.
      assert (Hb : 2 ^ (Zdigits2 mx - 1) * yd * (2 ^ p * D) <= yn * (2 ^ p * D))
        by (apply Z.mul_le_mono_nonneg_r; nia).
      assert (Hc : N * (yd * 2 ^ q) < D * 2 ^ 2097 * (yd * 2 ^ q))
        by (apply Z.mul_lt_mono_pos_r; nia).
      apply (Z.mul_lt_mono_pos_r (D * yd)); [nia |].
      replace (2 ^ (Zdigits2 mx - 1) * 2 ^ p * (D * yd))
        with (2 ^ (Zdigits2 mx - 1) * yd * (2 ^ p * D)) by ring.
      replace (2 ^ 2097 * 2 ^ q * (D * yd)) with (D * 2 ^ 2097 * (yd * 2 ^ q)) by ring.
      replace (yn * (2 ^ p * D)) with (N * (yd * 2 ^ q)) in Hb
        by (transitivity (N * yd * 2 ^ q); [ring | rewrite <- Hlink; ring]).
      lia. }
    apply pow2_lt_inv in Hlt; [| lia].
    unfold E. rewrite fexp_eq. lia. }
  (* the value *)
  set (g := E + 1074).
  assert (Hg2 : 2 ^ g * 2 ^ q = 2 ^ n * 2 ^ p).
  { rewrite <- !pow2_add by lia. f_equal. unfold g, n. lia. }
  pose proof (pow2_pos g ltac:(lia)) as Hgp.
  assert (HR : Rounds N D (m1 * 2 ^ g)).
  { exists g. split; [lia |]. split; [| split].
    - rewrite pow2_add by lia.
      assert (N * yd * 2 ^ q < D * (2 ^ g * 2 ^ 53) * yd * 2 ^ q); [| nia].
      rewrite <- Hlink.
      replace (D * (2 ^ g * 2 ^ 53) * yd * 2 ^ q)
        with ((yd * 2 ^ n * 2 ^ 53) * 2 ^ p * D)
        by (transitivity (yd * 2 ^ 53 * D * (2 ^ g * 2 ^ q)); [rewrite Hg2 |]; ring).
      nia.
    - destruct Hdgl as [[_ HEm] | (Hpos & Hdpos & Hlow)]; [left; lia |].
      destruct (Z.eq_dec g 0) as [| Hg0]; [left; assumption | right].
      assert (HEd : E = Zdigits2 mx + ex - 53) by (unfold g, E in *; rewrite fexp_eq in *; lia).
      assert (Hpw : 2 ^ (g + 52) * 2 ^ q = 2 ^ (Zdigits2 mx - 1) * 2 ^ p).
      { rewrite <- !pow2_add by lia. f_equal. lia. }
      assert (D * 2 ^ (g + 52) * yd * 2 ^ q <= N * yd * 2 ^ q); [| nia].
      rewrite <- Hlink.
      replace (D * 2 ^ (g + 52) * yd * 2 ^ q) with (D * yd * (2 ^ (g + 52) * 2 ^ q)) by ring.
      rewrite Hpw.
      assert (Ha : 2 ^ (Zdigits2 mx - 1) * yd <= yn) by nia.
      replace (D * yd * (2 ^ (Zdigits2 mx - 1) * 2 ^ p))
        with (2 ^ (Zdigits2 mx - 1) * yd * (2 ^ p * D)) by ring.
      replace (yn * 2 ^ p * D) with (yn * (2 ^ p * D)) by ring.
      apply Z.mul_le_mono_nonneg_r; nia.
    - f_equal. apply rhe_ratio; try nia.
      apply (Z.mul_reg_r _ _ (2 ^ q)); [lia |].
      replace (yn * (D * 2 ^ g) * 2 ^ q) with (yn * D * (2 ^ g * 2 ^ q)) by ring.
      rewrite Hg2.
      replace (yn * D * (2 ^ n * 2 ^ p)) with (yn * 2 ^ p * D * 2 ^ n) by ring.
      rewrite Hlink. ring. }
  (* the second shift only happens on a carry out of the 53 bits *)
  destruct (Z.eq_dec m1 (2 ^ 53)) as [Hc | Hnc].
  - rewrite Hc in *.
    replace (fexp prec emax (Zdigits2 (2 ^ 53) + E) - E) with 1
      by (rewrite fexp_eq; change (Zdigits2 (2 ^ 53)) with 54; lia).
    simpl shr. cbv beta iota.
    change (shr_m _) with (Zpos (2 ^ 52)).
    cbv beta iota.
    destruct (Z.leb_spec (E + 1) (emax - prec)) as [_ | Hov];
      [| change (emax - prec) with 971 in Hov; lia].
    split; [simpl; lia |].
    simpl scaled.
    replace (E + 1 + 1074) with (1 + g) by (unfold g; lia).
    rewrite pow2_add by lia.
    replace (Zpos (2 ^ 52) * (2 ^ 1 * 2 ^ g)) with (2 ^ 53 * 2 ^ g) by (change (2 ^ 53) with (Zpos (2 ^ 52) * 2 ^ 1); ring).
    exact HR.
  - rewrite shr_nonpos.
    2:{ rewrite fexp_eq. destruct (Z.eq_dec m1 0) as [-> | Hne]; [simpl; lia |].
        destruct (Zdigits2_bounds m1 ltac:(lia)) as (Hd0 & Hdl & _).
        assert (Hlt : 2 ^ (Zdigits2 m1 - 1) < 2 ^ 53) by lia.
        apply pow2_lt_inv in Hlt; lia. }
    simpl shr_m.
    destruct m1 as [| m | m] eqn:Em; [| | lia].
    + split; [exact I |]. simpl scaled. rewrite Z.mul_0_l in HR. exact HR.
    + destruct (Z.leb_spec E (emax - prec)) as [_ | Hov];
        [| change (emax - prec) with 971 in Hov; lia].
      split; [simpl; lia |]. simpl scaled. exact HR.
Qed.
End RoundAux.

Section Division.
Import PyFloat Rounding.

Lemma new_location_Loc n d q r :
  0 < d -> 0 <= r < d -> n = q * d + r -> Loc n d q (new_location d r).
Proof.
  intros Hd Hr ->. unfold new_location.
  destruct (Z.even d) eqn:Hev.
  - unfold new_location_even. destruct (Z.eqb_spec r 0) as [-> | Hr0]; [simpl; lia |].
    destruct (Z.compare_spec (2 * r) d); simpl; lia.
  - unfold new_location_odd. destruct (Z.eqb_spec r 0) as [-> | Hr0]; [simpl; lia |].
    assert (Hodd : Z.odd d = true) by (rewrite <- Z.negb_even, Hev; reflexivity).
    apply Z.odd_spec in Hodd. destruct Hodd as [k ->].
    destruct (Z.compare_spec (2 * r + 1) (2 * k + 1)); simpl; lia.
Qed.

Lemma div_eucl_div_mod a b : Z.div_eucl a b = (a / b, a mod b).
Proof. unfold Z.div, Z.modulo. destruct (Z.div_eucl a b). reflexivity. Qed.

Lemma Zdigits2_lower m k : 0 <= k -> 2 ^ k <= m -> k < Zdigits2 m.
Proof.
  intros Hk H. pose proof (pow2_pos k Hk).
  destruct (Zdigits2_bounds m ltac:(lia)) as (Hd & _ & Hu).
  apply (pow2_lt_inv k (Zdigits2 m)); lia.
Qed.

Lemma Zdigits2_mono a b : 0 < a <= b -> Zdigits2 a <= Zdigits2 b.
Proof.
  intros H. destruct (Zdigits2_bounds a ltac:(lia)) as (Hd & Hl & _).
  pose proof (Zdigits2_lower b (Zdigits2 a - 1) ltac:(lia) ltac:(lia)). lia.
Qed.

(** The quotient of two positive ints, [a <= c]. *)
Lemma SFdiv_Rounds (a c : positive) :
  (a <= c)%positive ->
  nonneg_finite (SFdiv prec emax (S754_finite false a 0) (S754_finite false c 0)) /\
  Rounds (Zpos a * 2 ^ 1074) (Zpos c)
         (scaled (SFdiv prec emax (S754_finite false a 0) (S754_finite false c 0))).
Proof.
  intros Hac. assert (Hac' : Zpos a <= Zpos c) by lia.
  unfold SFdiv, SFdiv_core_binary.
  set (d1 := Zdigits2 (Zpos a)). set (d2 := Zdigits2 (Zpos c)).
  destruct (Zdigits2_bounds (Zpos a) ltac:(lia)) as (Hd1 & Hl1 & Hu1).
  destruct (Zdigits2_bounds (Zpos c) ltac:(lia)) as (Hd2 & Hl2 & Hu2).
  fold d1 in Hd1, Hl1, Hu1. fold d2 in Hd2, Hl2, Hu2.
  assert (Hd12 : d1 <= d2) by (apply Zdigits2_mono; lia).
  replace (d1 + 0 - (d2 + 0)) with (d1 - d2) by lia.
  rewrite fexp_eq. change (0 - 0) with 0.
  rewrite Z.min_l by lia.
  set (e' := Z.max (d1 - d2 - 53) (-1074)).
  assert (He' : -1074 <= e' <= -53) by (unfold e'; lia).
  replace (0 - e') with (- e') by lia.
  destruct (- e') as [| s | s] eqn:Hs; try lia.
  rewrite Z.shiftl_mul_pow2 by lia.
  rewrite div_eucl_div_mod.
  pose proof (pow2_pos (Zpos s) ltac:(lia)) as Hs2.
  set (n := Zpos a * 2 ^ Zpos s) in *.
  pose proof (Z.div_mod n (Zpos c) ltac:(lia)) as Hdm.
  pose proof (Z.mod_pos_bound n (Zpos c) ltac:(lia)) as Hmb.
  assert (Hq0 : 0 <= n / Zpos c) by (apply Z.div_pos; nia).
  change (xorb false false) with false.
  apply (binary_round_aux_Rounds _ _ _ n (Zpos c) _ _ (1074 - Zpos s) 0);
    try lia.
  - apply new_location_Loc; lia.
  - (* enough bits in the quotient *)
    rewrite fexp_eq.
    destruct (Z.eq_dec e' (-1074)) as [-> | Hne]; [lia |].
    assert (He : e' = d1 - d2 - 53) by (unfold e' in *; lia).
    assert (Hq52 : 2 ^ 52 <= n / Zpos c).
    { apply Z.div_le_lower_bound; [lia |].
      assert (Hpw : 2 ^ (d1 - 1) * 2 ^ Zpos s = 2 ^ d2 * 2 ^ 52).
      { rewrite <- !pow2_add by lia. f_equal. lia. }
      assert (0 < 2 ^ 52) by reflexivity.
      assert (2 ^ (d1 - 1) * 2 ^ Zpos s <= n) by (unfold n; nia).
      nia. }
    pose proof (Zdigits2_lower (n / Zpos c) 52 ltac:(lia) Hq52). lia.
  - unfold n. rewrite Z.pow_0_r.
    replace (2 ^ 1074) with (2 ^ Zpos s * 2 ^ (1074 - Zpos s))
      by (rewrite <- pow2_add by lia; f_equal; lia).
    ring.
Qed.

Lemma SFdiv_self (c : positive) :
  SFdiv prec emax (S754_finite false c 0) (S754_finite false c 0) = f1_00.
Proof.
  unfold SFdiv, SFdiv_core_binary.
  replace (Zdigits2 (Zpos c) + 0 - (Zdigits2 (Zpos c) + 0)) with 0 by lia.
  change (Z.min (fexp prec emax 0) (0 - 0)) with (-53).
  change (0 - 0 - -53) with 53.
  cbv iota beta.
  rewrite Z.shiftl_mul_pow2 by lia.
  rewrite div_eucl_div_mod.
  rewrite (Z.mul_comm (Zpos c)), Z.div_mul, Z.mod_mul by lia.
  replace (new_location (Zpos c) 0) with loc_Exact
    by (unfold new_location; destruct (Z.even (Zpos c)); reflexivity).
  reflexivity.
Qed.
End Division.

Section Product.
Import PyFloat Rounding.

(** [x * 0.30] for [0 <= x <= 1]. *)
Lemma mul_Rounds x :
  nonneg_finite x -> scaled x <= 2 ^ 1074 ->
  nonneg_finite (mul x f0_30) /\
  Rounds (scaled x * scaled f0_30) (2 ^ 1074) (scaled (mul x f0_30)).
Proof.
  intros Hx Hle.
  assert (HK : 0 < 2 ^ 1074) by reflexivity.
  destruct x as [[] | | | [] m e]; simpl in Hx; try contradiction.
  - split; [exact I |]. apply Rounds_zero. exact HK.
  - unfold mul, SFmul, f0_30. change (xorb false false) with false.
    cbn [scaled] in *.
    set (M := 5404319552844595%positive).
    assert (HM : 2 ^ 52 <= Zpos M < 2 ^ 53) by (split; [discriminate | reflexivity]).
    pose proof (pow2_pos (e + 1074) ltac:(lia)) as HP.
    apply (binary_round_aux_Rounds _ _ _ (Zpos (m * M)) 1 _ _ (e + 1074) 54); try lia.
    + simpl. lia.
    + rewrite fexp_eq.
      pose proof (Zdigits2_lower (Zpos (m * M)) 52 ltac:(lia)) as Hd.
      rewrite Pos2Z.inj_mul in Hd. specialize (Hd ltac:(nia)).
      rewrite Pos2Z.inj_mul. lia.
Qed.
End Product.

Section Difference.
Import PyFloat Rounding.

Lemma Pos_iter_xO m d : Zpos (Pos.iter xO m d) = Zpos m * 2 ^ Zpos d.
Proof.
  induction d as [| d IH] using Pos.peano_ind.
  - simpl. rewrite (Pos2Z.inj_xO m). change (2 ^ 1) with 2. ring.
  - rewrite Pos.iter_succ, (Pos2Z.inj_xO (Pos.iter xO m d)), IH, Pos2Z.inj_succ.
    unfold Z.succ. rewrite pow2_add by lia. change (2 ^ 1) with 2. ring.
Qed.

Lemma shl_align_spec m ex ex' :
  snd (shl_align m ex ex') = Z.min ex ex' /\
  Zpos (fst (shl_align m ex ex')) = Zpos m * 2 ^ (ex - Z.min ex ex').
Proof.
  unfold shl_align. destruct (ex' - ex) as [| d | d] eqn:Hd; cbn [fst snd].
  - rewrite Z.min_l by lia. rewrite Z.sub_diag. split; [reflexivity | simpl; lia].
  - rewrite Z.min_l by lia. rewrite Z.sub_diag. split; [reflexivity | simpl; lia].
  - rewrite Z.min_r by lia. split; [reflexivity |].
    rewrite Pos_iter_xO. f_equal. f_equal. lia.
Qed.

Lemma shl_align_min m ex ex' : shl_align m ex (Z.min ex ex') = shl_align m ex ex'.
Proof.
  unfold shl_align. destruct (Z.min_spec ex ex') as [[H ->] | [H ->]]; [| reflexivity].
  rewrite Z.sub_diag. destruct (ex' - ex) eqn:E; try lia; reflexivity.
Qed.

Lemma Zdigits2_unique m d : 2 ^ (d - 1) <= m < 2 ^ d -> 0 < d -> Zdigits2 m = d.
Proof.
  intros [Hl Hu] Hd. pose proof (pow2_pos (d - 1) ltac:(lia)).
  destruct (Zdigits2_bounds m ltac:(lia)) as (Hd' & Hl' & Hu').
  assert (d - 1 < Zdigits2 m) by (apply pow2_lt_inv; lia).
  assert (Zdigits2 m - 1 < d) by (apply pow2_lt_inv; lia).
  lia.
Qed.

Lemma Zdigits2_shift m k : 0 < m -> 0 <= k -> Zdigits2 (m * 2 ^ k) = Zdigits2 m + k.
Proof.
  intros Hm Hk. destruct (Zdigits2_bounds m Hm) as (Hd & Hl & Hu).
  pose proof (pow2_pos k Hk).
  apply Zdigits2_unique; [| lia].
  replace (Zdigits2 m + k - 1) with (Zdigits2 m - 1 + k) by lia.
  rewrite !pow2_add by lia. nia.
Qed.

(** [1.00 - y] for [0 <= y <= 1]. *)
Lemma sub_Rounds y :
  nonneg_finite y -> scaled y <= 2 ^ 1074 ->
  nonneg_finite (sub f1_00 y) /\
  Rounds (2 ^ 1074 - scaled y) 1 (scaled (sub f1_00 y)).
Proof.
  intros Hy Hle.
  destruct y as [[] | | | [] my ey]; simpl in Hy; try contradiction.
  - split; [simpl; lia |]. exists 1022. repeat split; try lia. right. simpl. lia.
  - unfold sub, SFsub, f1_00. cbn [scaled] in Hle |- *.
    set (M1 := 4503599627370496%positive).
    set (ez := Z.min (-52) ey).
    destruct (shl_align_spec M1 (-52) ey) as [_ HA1].
    destruct (shl_align_spec my ey (-52)) as [_ HA2].
    rewrite (Z.min_comm ey) in HA2. fold ez in HA1, HA2.
    unfold cond_Zopp.
    set (diff := Zpos (fst (shl_align M1 (-52) ez)) - Zpos (fst (shl_align my ey ez))).
    pose proof (pow2_pos (ez + 1074) ltac:(lia)) as HP.
    assert (HN : diff * 2 ^ (ez + 1074) = 2 ^ 1074 - Zpos my * 2 ^ (ey + 1074)).
    { unfold diff.
      unfold ez at 1. rewrite shl_align_min.
      unfold ez at 1. rewrite (Z.min_comm (-52) ey), shl_align_min.
      rewrite HA1, HA2, Z.mul_sub_distr_r.
      rewrite <- !Z.mul_assoc, <- !pow2_add by lia.
      replace (-52 - ez + (ez + 1074)) with 1022 by lia.
      replace (ey - ez + (ez + 1074)) with (ey + 1074) by lia.
      reflexivity. }
    rewrite <- HN.
    assert (Hdiff : 0 <= diff) by nia.
    unfold binary_normalize.
    destruct diff as [| pd | pd] eqn:Hd; [| | lia].
    + split; [exact I |]. apply Rounds_zero. lia.
    + unfold binary_round.
      set (f := fexp prec emax (Zpos (digits2_pos pd) + ez)).
      destruct (shl_align_spec pd ez f) as [He0 Hmz].
      destruct (shl_align pd ez f) as [mz e0]. cbn [fst snd] in He0, Hmz. subst e0.
      set (e0 := Z.min ez f) in *.
      assert (Hf : -1074 <= f) by (unfold f; rewrite fexp_eq; lia).
      pose proof (pow2_pos (ez - e0) ltac:(lia)) as HP0.
      apply (binary_round_aux_Rounds _ _ _ (Zpos mz) 1 _ _ (e0 + 1074) 0); try lia.
      * simpl. lia.
      * rewrite Hmz, Zdigits2_shift by lia.
        replace (Zdigits2 (Zpos pd) + (ez - e0) + e0) with (Zpos (digits2_pos pd) + ez)
          by (simpl; lia).
        fold f. lia.
      * rewrite Hmz, Z.pow_0_r.
        replace (2 ^ (ez + 1074)) with (2 ^ (ez - e0) * 2 ^ (e0 + 1074))
          by (rewrite <- pow2_add by lia; f_equal; lia).
        ring.
Qed.
End Difference.

Section WeightChain.
Import PyFloat Rounding Weight.

Lemma scaled_nonneg x : nonneg_finite x -> 0 <= scaled x.
Proof.
  destruct x as [| | | [] m e]; simpl; lia.
Qed.

Lemma quotient_Rounds i c :
  0 <= i <= c -> 0 < c ->
  nonneg_finite (quotient i c) /\ Rounds (i * 2 ^ 1074) c (scaled (quotient i c)).
Proof.
  intros Hi Hc. unfold quotient.
  destruct c as [| c | c]; try lia. destruct i as [| i | i]; try lia.
  - split; [exact I |]. apply Rounds_zero. lia.
  - apply SFdiv_Rounds. lia.
Qed.

Lemma quotient_self c : 0 < c -> quotient c c = f1_00.
Proof. destruct c as [| c | c]; try lia. intros _. apply SFdiv_self. Qed.

Lemma quotient_mono i j c :
  0 <= i <= j -> j <= c -> 0 < c -> scaled (quotient i c) <= scaled (quotient j c).
Proof.
  intros Hij Hjc Hc.
  destruct (quotient_Rounds i c ltac:(lia) Hc) as [_ Ri].
  destruct (quotient_Rounds j c ltac:(lia) Hc) as [_ Rj].
  assert (HK : 0 < 2 ^ 1074) by reflexivity.
  set (K := 2 ^ 1074) in *. clearbody K.
  apply (Rounds_mono (i * K) c _ (j * K) c _); try assumption; [nia |].
  apply Z.mul_le_mono_nonneg_r; [lia |]. apply Z.mul_le_mono_nonneg_r; lia.
Qed.

Lemma quotient_le_one i c :
  0 <= i <= c -> 0 < c -> scaled (quotient i c) <= 2 ^ 1074.
Proof.
  intros Hi Hc. change (2 ^ 1074) with (scaled f1_00).
  rewrite <- (quotient_self c Hc). apply quotient_mono; lia.
Qed.

Lemma mul_mono q q' :
  nonneg_finite q -> nonneg_finite q' -> scaled q <= scaled q' -> scaled q' <= 2 ^ 1074 ->
  scaled (mul q f0_30) <= scaled (mul q' f0_30).
Proof.
  intros Hq Hq' Hle Hone.
  destruct (mul_Rounds q Hq ltac:(lia)) as [_ R].
  destruct (mul_Rounds q' Hq' Hone) as [_ R'].
  assert (HK : 0 < 2 ^ 1074) by reflexivity.
  assert (HS : 0 <= scaled f0_30) by discriminate.
  pose proof (scaled_nonneg q Hq) as Hq0.
  set (K := 2 ^ 1074) in *. clearbody K.
  set (S30 := scaled f0_30) in *. clearbody S30.
  apply (Rounds_mono (scaled q * S30) K _ (scaled q' * S30) K _); try assumption; [nia |].
  apply Z.mul_le_mono_nonneg_r; [lia |]. apply Z.mul_le_mono_nonneg_r; lia.
Qed.

Lemma mul_le_one q :
  nonneg_finite q -> scaled q <= 2 ^ 1074 -> scaled (mul q f0_30) <= 2 ^ 1074.
Proof.
  intros Hq Hone.
  apply Z.le_trans with (scaled (mul f1_00 f0_30)); [| by_computation].
  apply mul_mono; try assumption; [simpl; lia | reflexivity].
Qed.

Lemma interpolate_Rounds q :
  nonneg_finite q -> scaled q <= 2 ^ 1074 ->
  nonneg_finite (interpolate q) /\
  Rounds (2 ^ 1074 - scaled (mul q f0_30)) 1 (scaled (interpolate q)).
Proof.
  intros Hq Hone. apply sub_Rounds; [apply mul_Rounds; assumption | apply mul_le_one; assumption].
Qed.

Lemma interpolate_antimono q q' :
  nonneg_finite q -> nonneg_finite q' -> scaled q <= scaled q' -> scaled q' <= 2 ^ 1074 ->
  scaled (interpolate q') <= scaled (interpolate q).
Proof.
  intros Hq Hq' Hle Hone.
  destruct (interpolate_Rounds q Hq ltac:(lia)) as [_ R].
  destruct (interpolate_Rounds q' Hq' Hone) as [_ R'].
  pose proof (mul_mono q q' Hq Hq' Hle Hone).
  pose proof (mul_le_one q' Hq' Hone).
  eapply Rounds_mono; [| | | exact R' | exact R |]; lia.
Qed.

(** The interpolated value stays between 0.70 and 1.00. *)
Lemma interpolate_range q :
  nonneg_finite q -> scaled q <= 2 ^ 1074 ->
  scaled f0_70 <= scaled (interpolate q) <= scaled f1_00.
Proof.
  intros Hq Hone. split.
  - change f0_70 with (interpolate f1_00).
    apply interpolate_antimono; try assumption; [simpl; lia | reflexivity].
  - change f1_00 with (interpolate (S754_zero false)).
    apply interpolate_antimono; try assumption; [exact I | apply scaled_nonneg; assumption].
Qed.

Lemma digits_mono nd x y : 0 <= nd -> scaled x <= scaled y -> digits nd x <= digits nd y.
Proof.
  intros Hnd Hle. unfold digits. apply rhe_mono; try reflexivity.
  apply Z.mul_le_mono_nonneg_r; [discriminate |].
  apply Z.mul_le_mono_nonneg_l; [| exact Hle]. apply Z.pow_nonneg. lia.
Qed.

Lemma decimal_digits_digits m e nd :
  -1074 <= e -> decimal_digits m e nd = digits nd (S754_finite false m e).
Proof.
  intros He. unfold decimal_digits, digits. cbn [scaled].
  pose proof (pow2_pos (e + 1074) ltac:(lia)) as HP.
  destruct (Z.leb_spec 0 e) as [H0 | H0].
  - symmetry. replace (10 ^ nd * (Zpos m * 2 ^ (e + 1074)))
      with (Zpos m * 2 ^ e * 10 ^ nd * 2 ^ 1074)
      by (rewrite (Z.add_comm e), pow2_add by lia; ring).
    apply rhe_exact. reflexivity.
  - pose proof (pow2_pos (- e) ltac:(lia)).
    apply rhe_ratio; try lia.
    replace (2 ^ 1074) with (2 ^ (e + 1074) * 2 ^ (- e))
      by (rewrite <- pow2_add by lia; f_equal; lia).
    ring.
Qed.

(** [round] of a value in the range is the literal with the digits kept. *)
Lemma round_literal nd x :
  0 <= nd -> nonneg_finite x -> 0 < digits nd x ->
  round x nd = literal (digits nd x) (10 ^ nd).
Proof.
  intros Hnd Hx Hd.
  destruct x as [[] | | | [] m e]; simpl in Hx; try contradiction;
    try (unfold digits in Hd; simpl in Hd; rewrite Z.mul_0_r in Hd; discriminate).
  unfold round. rewrite decimal_digits_digits by assumption.
  destruct (digits nd (S754_finite false m e)) as [| k | k]; try lia. reflexivity.
Qed.

Lemma weight_literal nd i c :
  1 <= nd -> 0 <= i <= c -> 0 < c ->
  weight nd i c = literal (digits nd (interpolate (quotient i c))) (10 ^ nd) /\
  digits nd f0_70 <= digits nd (interpolate (quotient i c)) <= digits nd f1_00.
Proof.
  intros Hnd Hi Hc.
  destruct (quotient_Rounds i c Hi Hc) as [Hq _].
  pose proof (quotient_le_one i c Hi Hc) as Hone.
  destruct (interpolate_Rounds _ Hq Hone) as [Hx _].
  destruct (interpolate_range _ Hq Hone) as [Hlo Hhi].
  assert (Hk : digits nd f0_70 <= digits nd (interpolate (quotient i c)) <= digits nd f1_00)
    by (split; apply digits_mono; assumption || lia).
  split; [| exact Hk].
  apply round_literal; try assumption; [lia |].
  apply Z.lt_le_trans with (digits nd f0_70); [| lia].
  apply Z.lt_le_trans with 1; [lia |].
  unfold digits. apply rhe_ge; [reflexivity |].
  assert (H10 : 10 <= 10 ^ nd).
  { replace nd with (1 + (nd - 1)) by lia. rewrite Z.pow_add_r by lia.
    assert (0 < 10 ^ (nd - 1)) by (apply Z.pow_pos_nonneg; lia). lia. }
  apply Z.le_trans with (10 * scaled f0_70); [by_computation |].
  apply Z.mul_le_mono_nonneg_r; [discriminate | exact H10].
Qed.

Lemma literals_ordered_le nd lo hi k k' :
  literals_ordered nd lo hi = true -> lo <= k' -> k' <= k -> k <= hi ->
  le (literal k' (10 ^ nd)) (literal k (10 ^ nd)) = true.
Proof.
  unfold literals_ordered. intros H Hlo Hkk Hhi.
  assert (Hin : forall x, lo <= x <= hi -> In x (seqZ lo (hi - lo + 1)))
    by (intros x Hx; apply list_elem_of_In, elem_of_seqZ; lia).
  rewrite forallb_forall in H. specialize (H k (Hin k ltac:(lia))).
  rewrite forallb_forall in H. specialize (H k' (Hin k' ltac:(lia))).
  destruct (Z.leb_spec k' k); [exact H | lia].
Qed.

(** A later rank never has the larger weight. *)
Lemma weight_antimono nd i j c :
  1 <= nd -> literals_ordered nd (digits nd f0_70) (digits nd f1_00) = true ->
  0 <= i <= j -> j <= c -> 0 < c ->
  le (weight nd j c) (weight nd i c) = true.
Proof.
  intros Hnd Hord Hij Hjc Hc.
  destruct (weight_literal nd i c Hnd ltac:(lia) Hc) as [-> [Hilo Hihi]].
  destruct (weight_literal nd j c Hnd ltac:(lia) Hc) as [-> [Hjlo Hjhi]].
  apply (literals_ordered_le nd _ _ _ _ Hord); try lia.
  apply digits_mono; [lia |].
  destruct (quotient_Rounds i c ltac:(lia) Hc) as [Hqi _].
  destruct (quotient_Rounds j c ltac:(lia) Hc) as [Hqj _].
  apply interpolate_antimono; try assumption.
  - apply quotient_mono; lia.
  - apply quotient_le_one; lia.
Qed.

Lemma weight_first nd c : 0 < c -> weight nd 0 c = round f1_00 nd.
Proof. destruct c; try lia. reflexivity. Qed.

Lemma weight_last nd c : 0 < c -> weight nd c c = round f0_70 nd.
Proof. intros Hc. unfold weight. rewrite quotient_self by assumption. reflexivity. Qed.

Lemma int_true_div_quotient i c :
  0 <= i <= c -> 0 < c -> int_true_div i c = Ok (quotient i c).
Proof.
  intros Hi Hc. unfold int_true_div.
  destruct (Z.eqb_spec c 0); [lia |].
  destruct (quotient_Rounds i c Hi Hc) as [Hq _]. fold (quotient i c).
  destruct (quotient i c) as [| [] | |]; simpl in Hq; try contradiction; reflexivity.
Qed.
End WeightChain.
Section Loops.
Context {A B : Type}.

Lemma for_each_Ok (body : A -> result B) (g : A -> B) (l : list A) :
  (forall a, In a l -> body a = Ok (g a)) -> for_each body l = Ok (map g l).
Proof.
  induction l as [| a l IH]; intros H; [reflexivity |].
  cbn [for_each map]. rewrite (H a) by (left; reflexivity).
  cbn. rewrite IH by (intros; apply H; right; assumption). reflexivity.
Qed.

Lemma for_each_Raise (body : A -> result B) (l : list A) (e : exn) :
  for_each body l = Raise e -> exists a, In a l /\ body a = Raise e.
Proof.
  induction l as [| a l IH]; cbn [for_each]; [discriminate |].
  destruct (body a) as [b | e'] eqn:Hb; cbn.
  - destruct (for_each body l) as [bs | e'']; cbn; [discriminate |].
    intros [= ->]. destruct (IH eq_refl) as (a' & Hin & Ha'). exists a'. split; [right |]; assumption.
  - intros [= ->]. exists a. split; [left; reflexivity | assumption].
Qed.

Lemma enumerate_from_lookup (l : list A) : forall (i : Z) (n : nat),
  enumerate_from i l !! n = (fun a => (i + Z.of_nat n, a)) <$> l !! n.
Proof.
  induction l as [| a l IH]; intros i n; [reflexivity |].
  destruct n as [| n]; cbn [enumerate_from].
  - cbn. rewrite Z.add_0_r. reflexivity.
  - cbn [lookup list_lookup]. rewrite IH. destruct (l !! n); cbn; [| reflexivity].
    do 2 f_equal. lia.
Qed.

Lemma enumerate_from_In (l : list A) (i k : Z) (a : A) :
  In (k, a) (enumerate_from i l) -> i <= k < i + Z.of_nat (length l).
Proof.
  revert i. induction l as [| a' l IH]; intros i; cbn [enumerate_from In length]; [tauto |].
  intros [[= <- <-] | H]; [lia |]. apply IH in H. lia.
Qed.

Lemma enumerate_from_length (l : list A) (i : Z) : length (enumerate_from i l) = length l.
Proof. revert i. induction l as [| a l IH]; intros i; cbn; [| rewrite IH]; reflexivity. Qed.

Lemma slice_to_length (l : list A) (n : Z) : 0 <= n -> Z.of_nat (length (slice_to l n)) <= n.
Proof.
  intros Hn. unfold slice_to. destruct (Z.leb_spec 0 n); [| lia].
  rewrite length_take. lia.
Qed.

Lemma slice_to_length_full (l : list A) (n : Z) :
  0 <= n <= Z.of_nat (length l) -> length (slice_to l n) = Z.to_nat n.
Proof.
  intros Hn. unfold slice_to. destruct (Z.leb_spec 0 n); [| lia].
  rewrite length_take. lia.
Qed.

Lemma slice_to_zero (l : list A) : slice_to l 0 = [].
Proof. reflexivity. Qed.
End Loops.

Section Normalizers.
Import PyFloat Weight.
Context {F : Type}.

Lemma weights_of_length nd c (sel : list (string * F)) :
  length (weights_of nd c sel) = length sel.
Proof. unfold weights_of, enumerate. rewrite length_map. apply enumerate_from_length. Qed.

Lemma weights_of_lookup nd c (sel : list (string * F)) (n : nat) :
  weights_of nd c sel !! n =
  (fun '(unit, freq) => (unit, freq, weight nd (Z.of_nat n) c)) <$> sel !! n.
Proof.
  unfold weights_of, enumerate. rewrite list_lookup_fmap, enumerate_from_lookup.
  destruct (sel !! n) as [[u f] |]; reflexivity.
Qed.

(** With a divisor that covers the window, no division raises. *)
Lemma interpolation_loop (nd c : Z) (sel : list (string * F)) :
  0 < c -> Z.of_nat (length sel) <= c + 1 ->
  for_each (fun '(i, (unit, freq)) =>
              q ← int_true_div i c;
              let normalized := sub f1_00 (mul q f0_30) in
              Ok (unit, freq, round normalized nd))
           (enumerate sel)
  = Ok (weights_of nd c sel).
Proof.
  intros Hc Hlen. unfold weights_of. apply for_each_Ok.
  intros [i [u f]] Hin. apply enumerate_from_In in Hin.
  rewrite int_true_div_quotient by lia. reflexivity.
Qed.

Lemma fetch_normalize (words : list (string * F)) :
  FetchCommonWords.normalize_frequencies words = Ok (weights_of 3 499 (slice_to words 500)).
Proof.
  unfold FetchCommonWords.normalize_frequencies.
  change (FetchCommonWords.WORD_COUNT - 1) with 499.
  apply interpolation_loop; [lia |].
  pose proof (slice_to_length words 500 ltac:(lia)).
  change FetchCommonWords.WORD_COUNT with 500. lia.
Qed.

Lemma trigram_normalize (trigrams : list (string * F)) (count : Z) :
  1 < count ->
  GenerateTrigrams.normalize_frequencies trigrams count
  = Ok (weights_of 2 (count - 1) (slice_to trigrams count)).
Proof.
  intros Hc. unfold GenerateTrigrams.normalize_frequencies.
  apply interpolation_loop; [lia |].
  pose proof (slice_to_length trigrams count ltac:(lia)). lia.
Qed.

Lemma bigram_normalize (bigrams : list (string * F)) (count : Z) :
  1 < count ->
  UpdateBigrams.normalize_frequencies bigrams count
  = Ok (weights_of 2 (count - 1) (slice_to bigrams count)).
Proof.
  intros Hc. unfold UpdateBigrams.normalize_frequencies.
  destruct (Z.ltb_spec 1 count); [| lia].
  unfold weights_of. apply for_each_Ok.
  intros [i [u f]] Hin. apply enumerate_from_In in Hin.
  pose proof (slice_to_length bigrams count ltac:(lia)).
  rewrite int_true_div_quotient by lia. reflexivity.
Qed.

(** Without interpolation ([count <= 1]) every weight is 1.00. *)
Lemma bigram_normalize_flat (bigrams : list (string * F)) (count : Z) :
  count <= 1 ->
  UpdateBigrams.normalize_frequencies bigrams count
  = Ok (map (fun '(unit, freq) => (unit, freq, f1_00)) (slice_to bigrams count)).
Proof.
  intros Hc. unfold UpdateBigrams.normalize_frequencies.
  destruct (Z.ltb_spec 1 count); [lia |].
  unfold enumerate. generalize 0. induction (slice_to bigrams count) as [| [u f] l IH]; intros i.
  - reflexivity.
  - cbn [enumerate_from for_each map]. cbn. rewrite IH. reflexivity.
Qed.
End Normalizers.

(** * Strings and the emitted text *)

Section StringLemmas.
Import PyStr.

Lemma app_cons (x : ascii) (a b : string) : String x a +:+ b = String x (a +:+ b).
Proof. reflexivity. Qed.

Lemma app_assoc (a b c : string) : (a +:+ b) +:+ c = a +:+ b +:+ c.
Proof. induction a as [| x a IH]; [reflexivity | rewrite !app_cons, IH; reflexivity]. Qed.

Lemma app_nil_r (a : string) : a +:+ EmptyString = a.
Proof. induction a as [| x a IH]; [reflexivity | rewrite app_cons, IH; reflexivity]. Qed.

Lemma prefix_nil (s : string) : String.prefix EmptyString s = true.
Proof. destruct s; reflexivity. Qed.

Lemma prefix_app (s a b : string) :
  String.prefix s a = true -> String.prefix s (a +:+ b) = true.
Proof.
  revert a. induction s as [| x s IH]; intros a H; [apply prefix_nil |].
  destruct a as [| y a]; [discriminate |]. rewrite app_cons. cbn in *.
  destruct (ascii_dec x y); [apply IH; exact H | discriminate].
Qed.

Lemma prefix_refl (s : string) : String.prefix s s = true.
Proof.
  induction s as [| x s IH]; [reflexivity |]. cbn.
  destruct (ascii_dec x x); [exact IH | congruence].
Qed.

Lemma contains_nil (s : string) : contains EmptyString s = true.
Proof. destruct s; cbn [contains]; rewrite prefix_nil; reflexivity. Qed.

Lemma contains_refl (s : string) : contains s s = true.
Proof. destruct s; cbn [contains]; rewrite prefix_refl; reflexivity. Qed.

Lemma contains_app_l (s a b : string) :
  contains s a = true -> contains s (a +:+ b) = true.
Proof.
  induction a as [| x a IH]; cbn [contains]; intros H.
  - rewrite orb_false_r in H. destruct s; [apply contains_nil | discriminate].
  - apply orb_true_iff in H. destruct H as [H | H].
    + change (String x a +:+ b) with (String x (a +:+ b)). cbn [contains].
      change (String x (a +:+ b)) with (String x a +:+ b).
      rewrite (prefix_app _ _ _ H). reflexivity.
    + change (String x a +:+ b) with (String x (a +:+ b)). cbn [contains].
      rewrite (IH H). apply orb_true_r.
Qed.

Lemma contains_app_r (s a b : string) :
  contains s b = true -> contains s (a +:+ b) = true.
Proof.
  intros H. induction a as [| x a IH]; [exact H |].
  change (String x a +:+ b) with (String x (a +:+ b)). cbn [contains].
  rewrite IH. apply orb_true_r.
Qed.

Lemma contains_flatten (s x : string) (l : list string) :
  In x l -> contains s x = true -> contains s (flatten l) = true.
Proof.
  intros Hin Hx. induction l as [| y l IH]; [destruct Hin |].
  cbn [flatten foldr]. destruct Hin as [-> | Hin].
  - apply contains_app_l. exact Hx.
  - apply contains_app_r. apply IH. exact Hin.
Qed.

Lemma contains_join (sep e : string) (l : list string) :
  In e l -> contains e (join sep l) = true.
Proof.
  unfold join. induction l as [| x l IH]; [intros [] |].
  intros [-> | Hin]; cbn [String.concat].
  - destruct l; [apply contains_refl | apply contains_app_l, contains_refl].
  - destruct l as [| y l]; [destruct Hin |].
    apply contains_app_r, contains_app_r, IH. exact Hin.
Qed.

Lemma fold_left_append {A} (g : A -> string) (l : list A) (init : string) :
  fold_left (fun code x => code +:+ g x) l init = init +:+ flatten (map g l).
Proof.
  revert init. induction l as [| x l IH]; intros init; cbn [fold_left map flatten foldr].
  - symmetry. apply app_nil_r.
  - rewrite IH. apply app_assoc.
Qed.
End StringLemmas.

Section EmittedText.
Import PyFloat PyStr.

Lemma fetch_generate_shape {F} language (words : list (string * F * float)) :
  FetchCommonWords.generate_rust_code language words
  = FetchCommonWords.header language +:+ flatten (map FetchCommonWords.entry words)
    +:+ FetchCommonWords.footer.
Proof.
  unfold FetchCommonWords.generate_rust_code. rewrite fold_left_append. apply app_assoc.
Qed.

Lemma trigram_generate_shape language trigrams examples today :
  GenerateTrigrams.generate_rust_code language trigrams examples today
  = GenerateTrigrams.header language today
    +:+ flatten (map (GenerateTrigrams.entry examples) trigrams)
    +:+ GenerateTrigrams.footer.
Proof.
  unfold GenerateTrigrams.generate_rust_code. rewrite fold_left_append. apply app_assoc.
Qed.

Lemma bigram_generate_shape language bigrams examples source today :
  UpdateBigrams.generate_rust_function language bigrams examples source today
  = UpdateBigrams.header language (length bigrams) source today
    +:+ flatten (map (UpdateBigrams.entry examples) bigrams)
    +:+ UpdateBigrams.footer.
Proof.
  unfold UpdateBigrams.generate_rust_function. rewrite fold_left_append. apply app_assoc.
Qed.

(** An example among those kept for a unit is in the line of that unit. *)
Lemma trigram_entry_contains examples unit cf nf e :
  In e (GenerateTrigrams.example_list examples unit) ->
  contains e (GenerateTrigrams.entry examples (unit, cf, nf)) = true.
Proof.
  intros Hin. unfold GenerateTrigrams.entry.
  do 12 apply contains_app_r. apply contains_app_l. apply contains_join. exact Hin.
Qed.

Lemma bigram_entry_contains examples unit cf nf e :
  In e (UpdateBigrams.example_list examples unit) ->
  contains e (UpdateBigrams.entry examples (unit, cf, nf)) = true.
Proof.
  intros Hin. unfold UpdateBigrams.entry.
  do 12 apply contains_app_r. apply contains_app_l. apply contains_join. exact Hin.
Qed.

Lemma trigram_code_contains language trigrams examples today unit cf nf e :
  In (unit, cf, nf) trigrams ->
  In e (GenerateTrigrams.example_list examples unit) ->
  contains e (GenerateTrigrams.generate_rust_code language trigrams examples today) = true.
Proof.
  intros Ht He. rewrite trigram_generate_shape.
  apply contains_app_r, contains_app_l.
  apply (contains_flatten _ (GenerateTrigrams.entry examples (unit, cf, nf))).
  - apply in_map. exact Ht.
  - apply trigram_entry_contains. exact He.
Qed.

Lemma bigram_code_contains language bigrams examples source today unit cf nf e :
  In (unit, cf, nf) bigrams ->
  In e (UpdateBigrams.example_list examples unit) ->
  contains e (UpdateBigrams.generate_rust_function language bigrams examples source today)
  = true.
Proof.
  intros Ht He. rewrite bigram_generate_shape.
  apply contains_app_r, contains_app_l.
  apply (contains_flatten _ (UpdateBigrams.entry examples (unit, cf, nf))).
  - apply in_map. exact Ht.
  - apply bigram_entry_contains. exact He.
Qed.
End EmittedText.

(** * The normaliser *)

Section NormalizerClaims.
Import PyFloat Weight.

Lemma literals_ordered_2 : literals_ordered 2 (digits 2 f0_70) (digits 2 f1_00) = true.
Proof. vm_compute. reflexivity. Qed.

Lemma literals_ordered_3 : literals_ordered 3 (digits 3 f0_70) (digits 3 f1_00) = true.
Proof. vm_compute. reflexivity. Qed.

Lemma weights_of_window_ends {F} nd c N (sel : list (string * F)) :
  0 < c -> N = c + 1 -> length sel = Z.to_nat N ->
  round f1_00 nd = f1_00 -> round f0_70 nd = f0_70 ->
  window_ends (weights_of nd c sel) N f1_00 f0_70.
Proof.
  intros Hc -> Hlen H1 H7. split; [rewrite weights_of_length; exact Hlen |].
  destruct (lookup_lt_is_Some_2 sel 0%nat ltac:(lia)) as [[u0 f0] H0].
  destruct (lookup_lt_is_Some_2 sel (Z.to_nat (c + 1 - 1)) ltac:(lia)) as [[ul fl] Hl].
  exists (u0, f0, f1_00), (ul, fl, f0_70).
  rewrite !weights_of_lookup, H0, Hl. cbn [fmap option_fmap option_map snd].
  rewrite weight_first by lia.
  replace (Z.of_nat (Z.to_nat (c + 1 - 1))) with c by lia.
  rewrite weight_last by lia. rewrite H1, H7. repeat split; reflexivity.
Qed.

(** C1, as amended: with a target count [N > 1] and a list of at least [N]
    entries, the n-gram normalisers give the first entry of the window the
    weight 1.00 and the last one 0.70; the word normaliser, whose count is
    fixed at 500, does so for a list of at least 500 entries; and
    [("the",100), ("of",50), ("and",10)] with count 3 yields
    [1.00, 0.85, 0.70]. *)
Theorem C1_window_first_and_last :
  forall (F : Type) (l : list (string * F)) (N : Z),
    1 < N -> N <= Z.of_nat (length l) ->
    (exists r, GenerateTrigrams.normalize_frequencies l N = Ok r /\
               window_ends r N f1_00 f0_70) /\
    (exists r, UpdateBigrams.normalize_frequencies l N = Ok r /\
               window_ends r N f1_00 f0_70) /\
    (N = FetchCommonWords.WORD_COUNT ->
     exists r, FetchCommonWords.normalize_frequencies l = Ok r /\
               window_ends r N f1_00 f0_70) /\
    GenerateTrigrams.normalize_frequencies three_words 3
      = Ok [("the", 100, f1_00); ("of", 50, f0_85); ("and", 10, f0_70)] /\
    UpdateBigrams.normalize_frequencies three_words 3
      = Ok [("the", 100, f1_00); ("of", 50, f0_85); ("and", 10, f0_70)].
Proof.
  intros F l N HN Hlen.
  assert (Hsel : length (slice_to l N) = Z.to_nat N) by (apply slice_to_length_full; lia).
  split; [| split; [| split; [| split]]].
  - eexists. split; [apply trigram_normalize; exact HN |].
    apply weights_of_window_ends; try lia; try assumption; reflexivity.
  - eexists. split; [apply bigram_normalize; exact HN |].
    apply weights_of_window_ends; try lia; try assumption; reflexivity.
  - intros ->. eexists. split; [apply fetch_normalize |].
    apply weights_of_window_ends; try lia; try assumption; reflexivity.
  - vm_compute. reflexivity.
  - vm_compute. reflexivity.
Qed.

Lemma C1_window_first_and_last_witness :
  (1 < 3 /\ 3 <= Z.of_nat (length three_words)) /\
  exists r, GenerateTrigrams.normalize_frequencies three_words 3 = Ok r /\
            window_ends r 3 f1_00 f0_70.
Proof.
  split; [split; [lia | simpl; lia] |].
  apply (C1_window_first_and_last Z three_words 3); [lia | simpl; lia].
Defined.

(** C1 as stated fails: the word normaliser divides by 499 whatever the
    size of the list, so the last of three words gets 0.999, not 0.70. *)
Lemma C1_three_words_end_at_0_999 :
  exists r, FetchCommonWords.normalize_frequencies three_words = Ok r /\
            printed_weights 3 r = ["1.000"; "0.999"; "0.999"] /\
            ~ window_ends r 3 f1_00 f0_70.
Proof.
  eexists. split; [vm_compute; reflexivity |]. split; [vm_compute; reflexivity |].
  intros [_ (w0 & wl & _ & _ & Hl & Hw)]. vm_compute in Hl.
  injection Hl as <-. vm_compute in Hw. discriminate.
Qed.
End NormalizerClaims.

Section NormalizerEdges.
Import PyFloat Weight.

Lemma int_true_div_ZeroDivisionError a b :
  int_true_div a b = Raise ZeroDivisionError -> b = 0.
Proof.
  unfold int_true_div. destruct (Z.eqb_spec b 0); [trivial |].
  destruct (SFdiv prec emax (of_int a) (of_int b)); discriminate.
Qed.

(** C3, as amended: for a target count [N <= 0] no normaliser raises an
    InvalidConfiguration-class error and none divides by zero.  The bigram
    normaliser returns the entries of the slice [list[:N]], each with the
    weight 1.00; the trigram normaliser never raises ZeroDivisionError; for
    [N = 0] both return the empty list. *)
Theorem C3_nonpositive_count_returns :
  forall (F : Type) (l : list (string * F)) (N : Z),
    N <= 0 ->
    UpdateBigrams.normalize_frequencies l N
      = Ok (map (fun '(unit, freq) => (unit, freq, f1_00)) (slice_to l N)) /\
    GenerateTrigrams.normalize_frequencies l N <> Raise ZeroDivisionError /\
    (N = 0 -> UpdateBigrams.normalize_frequencies l N = Ok [] /\
              GenerateTrigrams.normalize_frequencies l N = Ok []).
Proof.
  intros F l N HN. split; [apply bigram_normalize_flat; lia |]. split.
  - intros H. apply for_each_Raise in H. destruct H as ([i [u f]] & _ & H).
    destruct (int_true_div i (N - 1)) as [q | e] eqn:Hq; [discriminate |].
    cbn in H. injection H as ->. apply int_true_div_ZeroDivisionError in Hq. lia.
  - intros ->. split; reflexivity.
Qed.

Lemma C3_nonpositive_count_returns_witness :
  -1 <= 0 /\
  UpdateBigrams.normalize_frequencies three_words (-1)
    = Ok (map (fun '(unit, freq) => (unit, freq, f1_00)) (slice_to three_words (-1))).
Proof.
  split; [lia |]. apply (C3_nonpositive_count_returns Z three_words (-1)). lia.
Defined.

(** C3 as stated fails: with count 0 both n-gram normalisers return the
    empty list instead of failing, and with count -1 they return weights. *)
Lemma C3_count_zero_returns_empty :
  GenerateTrigrams.normalize_frequencies three_words 0 = Ok [] /\
  UpdateBigrams.normalize_frequencies three_words 0 = Ok [] /\
  (exists r, GenerateTrigrams.normalize_frequencies three_words (-1) = Ok r /\
             printed_weights 2 r = ["1.00"; "1.15"]) /\
  (exists r, UpdateBigrams.normalize_frequencies three_words (-1) = Ok r /\
             printed_weights 2 r = ["1.00"; "1.00"]).
Proof.
  split; [reflexivity |]. split; [reflexivity |].
  split; eexists; (split; [vm_compute; reflexivity | vm_compute; reflexivity]).
Qed.

Lemma trigram_count_one {F} (unit : string) (freq : F) (rest : list (string * F)) :
  GenerateTrigrams.normalize_frequencies ((unit, freq) :: rest) 1 = Raise ZeroDivisionError.
Proof. reflexivity. Qed.

Lemma trigram_normalize_one {F} (l : list (string * F)) r :
  GenerateTrigrams.normalize_frequencies l 1 = Ok r -> r = [].
Proof.
  destruct l as [| [u f] rest]; [intros [= <-]; reflexivity |].
  rewrite trigram_count_one. discriminate.
Qed.

(** C4: with count 1 and a non-empty list the trigram normaliser divides
    by [count - 1 = 0] and raises, where the bigram normaliser, which
    guards the division, returns the one entry with the weight 1.00. *)
Theorem C4_trigram_count_one_raises :
  forall (F : Type) (unit : string) (freq : F) (rest : list (string * F)),
    GenerateTrigrams.normalize_frequencies ((unit, freq) :: rest) 1
      = Raise ZeroDivisionError /\
    UpdateBigrams.normalize_frequencies ((unit, freq) :: rest) 1
      = Ok [(unit, freq, f1_00)].
Proof.
  intros F unit freq rest. split; [apply trigram_count_one | reflexivity].
Qed.

(** C7: the trigram normaliser has no guard on its count: with count -1
    it keeps all but the last entry and divides by -2, so the weight grows
    with the rank, 1.00 then 1.15.  The bigram normaliser, which guards the
    interpolation with [count > 1], gives 1.00 to both. *)
Theorem C7_trigram_negative_count_increases :
  exists first second,
    GenerateTrigrams.normalize_frequencies three_words (-1)
      = Ok [("the", 100, first); ("of", 50, second)] /\
    format_f first 2 = "1.00" /\ format_f second 2 = "1.15" /\
    le first second = true /\ le second first = false /\
    UpdateBigrams.normalize_frequencies three_words (-1)
      = Ok [("the", 100, f1_00); ("of", 50, f1_00)].
Proof.
  eexists _, _. split; [vm_compute; reflexivity |].
  repeat split; vm_compute; reflexivity.
Qed.

(** X3: within the window the weight never increases with the rank: in
    the word normaliser for every list, in the trigram normaliser for every
    list and every target count [N >= 1], and in the bigram normaliser for
    every list and every target count. *)
Theorem X3_weights_non_increasing :
  forall (F : Type) (l : list (string * F)) (N : Z)
         (r : list (string * F * float)) (i j : nat) (wi wj : string * F * float),
    FetchCommonWords.normalize_frequencies l = Ok r \/
    (1 <= N /\ GenerateTrigrams.normalize_frequencies l N = Ok r) \/
    UpdateBigrams.normalize_frequencies l N = Ok r ->
    (i < j)%nat -> r !! i = Some wi -> r !! j = Some wj ->
    le wj.2 wi.2 = true.
Proof.
  intros F l N r i j wi wj Hr Hij Hi Hj.
  assert (Hgen : forall nd c (sel : list (string * F)),
             1 <= nd -> 0 < c -> Z.of_nat (length sel) <= c + 1 ->
             literals_ordered nd (digits nd f0_70) (digits nd f1_00) = true ->
             r = weights_of nd c sel -> le wj.2 wi.2 = true).
  { intros nd c sel Hnd Hc Hlen Hord ->.
    rewrite weights_of_lookup in Hi, Hj.
    destruct (sel !! i) as [[ui fi] |] eqn:Ei; [| discriminate].
    destruct (sel !! j) as [[uj fj] |] eqn:Ej; [| discriminate].
    injection Hi as <-. injection Hj as <-. cbn [snd].
    apply lookup_lt_Some in Ej.
    apply weight_antimono; try assumption; lia. }
  assert (Hwindow : forall c, 0 < c -> r = weights_of 2 c (slice_to l (c + 1)) ->
                              le wj.2 wi.2 = true).
  { intros c Hc ->. apply (Hgen 2 c (slice_to l (c + 1))); try lia;
      [| apply literals_ordered_2 | reflexivity].
    apply slice_to_length. lia. }
  destruct Hr as [Hr | [[HN Hr] | Hr]].
  - rewrite fetch_normalize in Hr. injection Hr as <-.
    apply (Hgen 3 499 (slice_to l 500)); try lia; [| apply literals_ordered_3 | reflexivity].
    pose proof (slice_to_length l 500 ltac:(lia)). lia.
  - destruct (Z.eq_dec N 1) as [-> | HN1].
    + apply trigram_normalize_one in Hr. subst r. discriminate.
    + rewrite trigram_normalize in Hr by lia. injection Hr as <-.
      apply (Hwindow (N - 1)); [lia |]. replace (N - 1 + 1) with N by lia. reflexivity.
  - destruct (Z_lt_le_dec 1 N) as [HN | HN].
    + rewrite bigram_normalize in Hr by lia. injection Hr as <-.
      apply (Hwindow (N - 1)); [lia |]. replace (N - 1 + 1) with N by lia. reflexivity.
    + rewrite bigram_normalize_flat in Hr by lia. injection Hr as <-.
      rewrite list_lookup_fmap in Hi, Hj.
      destruct (slice_to l N !! i) as [[ui fi] |]; [| discriminate].
      destruct (slice_to l N !! j) as [[uj fj] |]; [| discriminate].
      injection Hi as <-. injection Hj as <-. reflexivity.
Qed.

Lemma X3_weights_non_increasing_witness :
  exists r wi wj,
    (1 <= 3 /\ GenerateTrigrams.normalize_frequencies three_words 3 = Ok r) /\
    r !! 0%nat = Some wi /\ r !! 2%nat = Some wj /\ le wj.2 wi.2 = true.
Proof.
  exists [("the", 100, f1_00); ("of", 50, f0_85); ("and", 10, f0_70)],
         ("the", 100, f1_00), ("and", 10, f0_70).
  assert (H : GenerateTrigrams.normalize_frequencies three_words 3
              = Ok [("the", 100, f1_00); ("of", 50, f0_85); ("and", 10, f0_70)])
    by (vm_compute; reflexivity).
  split; [split; [lia | exact H] |]. split; [reflexivity |]. split; [reflexivity |].
  apply (X3_weights_non_increasing Z three_words 3
           [("the", 100, f1_00); ("of", 50, f0_85); ("and", 10, f0_70)] 0%nat 2%nat);
    [right; left; split; [lia | exact H] | lia | reflexivity | reflexivity].
Defined.
End NormalizerEdges.

(** * The validator *)

Section Validator.
Import PyFloat PyStr.

Lemma validate_examples_fold pattern examples : forall log all_valid,
  fold_left (fun '(log, all_valid) example =>
               if negb (contains (lower pattern) (lower example))
               then ((log ++ [Warning example pattern])%list, false)
               else (log, all_valid))
            examples (log, all_valid)
  = ((log ++ map (fun e => Warning e pattern) (containment_failures pattern examples))%list,
     all_valid && forallb (fun e => contains (lower pattern) (lower e)) examples).
Proof.
  induction examples as [| e l IH]; intros log v; cbn [fold_left].
  - cbn. rewrite List.app_nil_r, andb_true_r. reflexivity.
  - unfold containment_failures. cbn [List.filter forallb].
    destruct (contains (lower pattern) (lower e)); cbn [negb].
    + rewrite IH. reflexivity.
    + rewrite IH. cbn [map]. rewrite <- List.app_assoc, !andb_false_r. reflexivity.
Qed.

(** The validator warns about exactly the examples that fail, in their
    order, and passes when there is none. *)
Lemma validate_examples_spec pattern examples :
  GenerateTrigrams.validate_examples pattern examples
  = (map (fun e => Warning e pattern) (containment_failures pattern examples),
     forallb (fun e => contains (lower pattern) (lower e)) examples).
Proof. unfold GenerateTrigrams.validate_examples. apply validate_examples_fold. Qed.

Lemma validate_language_fold (examples_of : gmap string (list string))
      (units : list (string * float)) : forall log valid,
  fold_left (fun '(log, valid) '(trigram, _) =>
               let examples := default [] (examples_of !! trigram) in
               let '(warnings, ok) := GenerateTrigrams.validate_examples trigram examples in
               ((log ++ warnings)%list, if negb ok then false else valid))
            units (log, valid)
  = ((log ++ flat_map (fun '(trigram, _) =>
                         (GenerateTrigrams.validate_examples
                            trigram (default [] (examples_of !! trigram))).1) units)%list,
     valid && forallb (fun '(trigram, _) =>
                         (GenerateTrigrams.validate_examples
                            trigram (default [] (examples_of !! trigram))).2) units).
Proof.
  induction units as [| [u f] l IH]; intros log valid; cbn [fold_left flat_map forallb].
  - rewrite List.app_nil_r, andb_true_r. reflexivity.
  - destruct (GenerateTrigrams.validate_examples u (default [] (examples_of !! u)))
      as [warnings ok] eqn:Hv.
    cbn [fst snd]. rewrite IH, <- List.app_assoc.
    destruct ok; cbn [negb andb]; [reflexivity | rewrite andb_false_r; reflexivity].
Qed.

Lemma validate_language_spec (top : list (string * float))
      (examples_of : gmap string (list string)) :
  GenerateTrigrams.validate_language top examples_of
  = (flat_map (fun '(trigram, _) =>
                 (GenerateTrigrams.validate_examples
                    trigram (default [] (examples_of !! trigram))).1)
              (slice_to top GenerateTrigrams.TRIGRAM_COUNT),
     forallb (fun '(trigram, _) =>
                (GenerateTrigrams.validate_examples
                   trigram (default [] (examples_of !! trigram))).2)
             (slice_to top GenerateTrigrams.TRIGRAM_COUNT)).
Proof. unfold GenerateTrigrams.validate_language. apply validate_language_fold. Qed.

Lemma slice_to_all {A} (l : list A) (n : Z) : Z.of_nat (length l) <= n -> slice_to l n = l.
Proof.
  intros H. unfold slice_to. destruct (Z.leb_spec 0 n); [| lia].
  apply take_ge. lia.
Qed.

(** C10: the validator passes an empty example list without a warning, so
    a unit that the ExampleSet does not know adds no warning and leaves the
    flag of its language alone; the emitter later writes ten placeholders
    for it. *)
Theorem C10_absent_unit_passes_validation :
  forall (pattern : string) (freq : float) (examples : gmap string (list string))
         (before after : list (string * float)),
    examples !! pattern = None ->
    (length (before ++ (pattern, freq) :: after) <= 20)%nat ->
    GenerateTrigrams.validate_examples pattern [] = ([], true) /\
    GenerateTrigrams.validate_language (before ++ (pattern, freq) :: after) examples
      = GenerateTrigrams.validate_language (before ++ after) examples /\
    GenerateTrigrams.example_list examples pattern = replicate 10 "example".
Proof.
  intros pattern freq examples before after Hnone Hlen.
  split; [reflexivity |]. split.
  - rewrite !validate_language_spec.
    rewrite !slice_to_all.
    2:{ rewrite length_app in *. cbn [length] in Hlen.
        change GenerateTrigrams.TRIGRAM_COUNT with 20. lia. }
    2:{ change GenerateTrigrams.TRIGRAM_COUNT with 20. lia. }
    rewrite !flat_map_app, !forallb_app. cbn [flat_map forallb].
    rewrite Hnone. reflexivity.
  - unfold GenerateTrigrams.example_list. rewrite Hnone. reflexivity.
Qed.

Lemma C10_absent_unit_passes_validation_witness :
  let examples : gmap string (list string) := {["the" := ["the"; "cat"]]} in
  examples !! "xyz" = None /\
  GenerateTrigrams.validate_language [("the", f1_00); ("xyz", f0_85)] examples
    = GenerateTrigrams.validate_language [("the", f1_00)] examples.
Proof.
  split; [reflexivity |].
  apply (C10_absent_unit_passes_validation
           "xyz" f0_85 {["the" := ["the"; "cat"]]} [("the", f1_00)] []);
    [reflexivity | simpl; lia].
Defined.

Lemma bigram_main_prints_code_only english french english_examples french_examples today e :
  In e (UpdateBigrams.main english french english_examples french_examples today).1 ->
  exists text, e = Code text.
Proof.
  unfold UpdateBigrams.main.
  destruct (UpdateBigrams.normalize_frequencies english _); [| intros []].
  destruct (UpdateBigrams.normalize_frequencies french _); [| intros []].
  cbn [fst In]. intros [<- | [<- | []]]; eexists; reflexivity.
Qed.

(** C2: the trigram validator reports the containment failures, but the
    bigram pipeline has no validator: [main] of update_bigrams.py prints
    code only, and the example [pouvoir] that its own table gives for the
    bigram [et] goes into the generated code unreported. *)
Theorem C2_bigram_examples_are_not_validated :
  GenerateTrigrams.validate_examples "th" ["the"; "that"; "cat"] = ([Warning "cat" "th"], false) /\
  GenerateTrigrams.validate_examples "et" et_examples = ([Warning "pouvoir" "et"], false) /\
  (forall english french english_examples french_examples today e,
      In e (UpdateBigrams.main english french english_examples french_examples today).1 ->
      exists text, e = Code text) /\
  exists english_code french_code,
    UpdateBigrams.main [] [("et", literal 185 100)] ∅ {["et" := et_examples]} jan_7
      = ([Code english_code; Code french_code], Ok tt) /\
    contains "pouvoir" french_code = true.
Proof.
  split; [reflexivity |]. split; [reflexivity |].
  split; [intros *; apply bigram_main_prints_code_only |].
  eexists _, _. split; [reflexivity |]. vm_compute. reflexivity.
Qed.
End Validator.

(** * The emitter *)

Section Emitter.
Import PyFloat PyStr Weight.

(** C5: the word emitter escapes a double quote of the unit, the two
    n-gram emitters embed it as it is, which leaves an odd number of
    string delimiters on the line. *)
Theorem C5_ngram_emitters_do_not_escape :
  FetchCommonWords.entry (quoted_unit, 7, f1_00)
    = "        Word::new(" +:+ dquote +:+ "a" +:+ backslash +:+ dquote +:+ "b" +:+ dquote
      +:+ ", 1.000)," +:+ nl /\
  unescaped_quotes false (FetchCommonWords.entry (quoted_unit, 7, f1_00)) = 2%nat /\
  GenerateTrigrams.entry {[quoted_unit := ["x"]]} (quoted_unit, f0_85, f1_00)
    = "        // Corpus: 0.85%" +:+ nl +:+
      "        Trigram::new(" +:+ dquote +:+ "a" +:+ dquote +:+ "b" +:+ dquote
      +:+ ", 1.00, &[" +:+ dquote +:+ "x" +:+ dquote +:+ "])," +:+ nl /\
  unescaped_quotes false
    (GenerateTrigrams.entry {[quoted_unit := ["x"]]} (quoted_unit, f0_85, f1_00)) = 5%nat /\
  UpdateBigrams.entry {[quoted_unit := ["x"]]} (quoted_unit, f0_85, f1_00)
    = "        // Corpus: 0.85%" +:+ nl +:+
      "        Bigram::new(" +:+ dquote +:+ "a" +:+ dquote +:+ "b" +:+ dquote
      +:+ ", 1.00, &[" +:+ dquote +:+ "x" +:+ dquote +:+ "])," +:+ nl /\
  unescaped_quotes false
    (UpdateBigrams.entry {[quoted_unit := ["x"]]} (quoted_unit, f0_85, f1_00)) = 5%nat.
Proof. repeat split; vm_compute; reflexivity. Qed.

Lemma weights_of_In {F} nd c (sel : list (string * F)) unit freq :
  In (unit, freq) sel -> exists w, In (unit, freq, w) (weights_of nd c sel).
Proof.
  intros Hin. apply list_elem_of_In, list_elem_of_lookup in Hin. destruct Hin as [n Hn].
  exists (weight nd (Z.of_nat n) c).
  apply list_elem_of_In, list_elem_of_lookup. exists n.
  rewrite weights_of_lookup, Hn. reflexivity.
Qed.

Lemma trigram_main_shape english french english_examples french_examples today :
  GenerateTrigrams.main english french english_examples french_examples today
  = ((trigram_validation_log english french english_examples french_examples ++
      [Code (GenerateTrigrams.generate_rust_code
               "english" (weights_of 2 19 (slice_to english 20)) english_examples today);
       Code (GenerateTrigrams.generate_rust_code
               "french" (weights_of 2 19 (slice_to french 20)) french_examples today)])%list,
     Ok tt).
Proof.
  unfold GenerateTrigrams.main, trigram_validation_log.
  destruct (GenerateTrigrams.validate_language english english_examples) as [el ev].
  destruct (GenerateTrigrams.validate_language french french_examples) as [fl fv].
  rewrite !trigram_normalize by reflexivity. reflexivity.
Qed.

(** C6, as amended: a validation failure is not fatal.  [main] always
    ends normally; after the warnings and the verdict it prints the code
    that the emitter makes from the normalised lists and the unchanged
    example sets, whatever the validation found; and an example among the
    first ten of a unit of the window is in that code, valid or not. *)
Theorem C6_validation_is_not_fatal :
  forall (english french : list (string * float))
         (english_examples french_examples : gmap string (list string)) (today : date),
  exists english_normalized french_normalized,
    GenerateTrigrams.normalize_frequencies english GenerateTrigrams.TRIGRAM_COUNT
      = Ok english_normalized /\
    GenerateTrigrams.normalize_frequencies french GenerateTrigrams.TRIGRAM_COUNT
      = Ok french_normalized /\
    GenerateTrigrams.main english french english_examples french_examples today
      = ((trigram_validation_log english french english_examples french_examples ++
          [Code (GenerateTrigrams.generate_rust_code
                   "english" english_normalized english_examples today);
           Code (GenerateTrigrams.generate_rust_code
                   "french" french_normalized french_examples today)])%list,
         Ok tt) /\
    (forall unit freq registered example,
        In (unit, freq) (slice_to english GenerateTrigrams.TRIGRAM_COUNT) ->
        english_examples !! unit = Some registered ->
        In example (take 10 registered) ->
        contains example (GenerateTrigrams.generate_rust_code
                            "english" english_normalized english_examples today) = true) /\
    (forall unit freq registered example,
        In (unit, freq) (slice_to french GenerateTrigrams.TRIGRAM_COUNT) ->
        french_examples !! unit = Some registered ->
        In example (take 10 registered) ->
        contains example (GenerateTrigrams.generate_rust_code
                            "french" french_normalized french_examples today) = true).
Proof.
  intros english french english_examples french_examples today.
  exists (weights_of 2 19 (slice_to english 20)), (weights_of 2 19 (slice_to french 20)).
  split; [apply trigram_normalize; reflexivity |].
  split; [apply trigram_normalize; reflexivity |].
  split; [apply trigram_main_shape |].
  split; intros unit freq registered example Hin Hreg Hex;
    destruct (weights_of_In 2 19 _ unit freq Hin) as [w Hw];
    apply (trigram_code_contains _ _ _ _ unit freq w); try exact Hw;
    unfold GenerateTrigrams.example_list; rewrite Hreg; exact Hex.
Qed.

Lemma C6_validation_is_not_fatal_witness :
  let examples : gmap string (list string) := {["the" := ["the"; "cat"]]} in
  GenerateTrigrams.validate_examples "the" ["the"; "cat"] = ([Warning "cat" "the"], false) /\
  exists english_normalized,
    GenerateTrigrams.normalize_frequencies [("the", f0_85)] GenerateTrigrams.TRIGRAM_COUNT
      = Ok english_normalized /\
    contains "cat" (GenerateTrigrams.generate_rust_code
                      "english" english_normalized examples jan_7) = true.
Proof.
  split; [reflexivity |].
  destruct (C6_validation_is_not_fatal [("the", f0_85)] [] {["the" := ["the"; "cat"]]} ∅ jan_7)
    as (en & fr & Hen & _ & _ & Hin & _).
  exists en. split; [exact Hen |].
  apply (Hin "the" f0_85 ["the"; "cat"] "cat");
    [left; reflexivity | reflexivity | right; left; reflexivity].
Defined.

(** C6 as stated fails: the validator reads every example of a unit, the
    emitter keeps ten, so a wrong eleventh example is reported and is not
    in the emitted text. *)
Lemma C6_eleventh_example_is_not_emitted :
  exists log english_code french_code,
    GenerateTrigrams.main [("the", literal 351 100)] [] {["the" := eleven_examples]} ∅ jan_7
      = ((log ++ [Code english_code; Code french_code])%list, Ok tt) /\
    log = [Warning "cat" "the"; SomeInvalid] /\
    contains "cat" english_code = false /\ contains "cat" french_code = false.
Proof.
  exists [Warning "cat" "the"; SomeInvalid]. eexists _, _.
  split; [vm_compute; reflexivity |]. split; [reflexivity |].
  split; vm_compute; reflexivity.
Qed.

Lemma trigram_entry_lines examples unit corpus_freq weight :
  GenerateTrigrams.entry examples (unit, corpus_freq, weight)
  = ngram_lines "Trigram" unit corpus_freq weight
                (kept_examples (replicate 10 "example") examples unit).
Proof.
  unfold GenerateTrigrams.entry, GenerateTrigrams.example_list, kept_examples, ngram_lines.
  destruct (examples !! unit); reflexivity.
Qed.

Lemma bigram_entry_lines examples unit corpus_freq weight :
  UpdateBigrams.entry examples (unit, corpus_freq, weight)
  = ngram_lines "Bigram" unit corpus_freq weight
                (kept_examples ten_numbered_placeholders examples unit).
Proof.
  unfold UpdateBigrams.entry, UpdateBigrams.example_list, kept_examples, ngram_lines.
  destruct (examples !! unit); reflexivity.
Qed.

(** C8, as amended: the text of both n-gram emitters is the header, then
    for each entry in order its two lines, then the footer; the line of a
    unit carries the first ten examples registered for it, in their order
    (fewer when fewer are registered, a single empty string when the list
    is empty), and ten placeholders when the ExampleSet has no entry for
    the unit: ["example"] ten times in the trigram script, [ex0] to [ex9]
    in the bigram script. *)
Theorem C8_emitted_examples :
  forall (language source : string) (entries : list (string * float * float))
         (examples : gmap string (list string)) (today : date),
    GenerateTrigrams.generate_rust_code language entries examples today
      = GenerateTrigrams.header language today +:+
        flatten (map (fun '(unit, corpus_freq, weight) =>
                        ngram_lines "Trigram" unit corpus_freq weight
                                    (kept_examples (replicate 10 "example") examples unit))
                     entries) +:+
        GenerateTrigrams.footer /\
    UpdateBigrams.generate_rust_function language entries examples source today
      = UpdateBigrams.header language (length entries) source today +:+
        flatten (map (fun '(unit, corpus_freq, weight) =>
                        ngram_lines "Bigram" unit corpus_freq weight
                                    (kept_examples ten_numbered_placeholders examples unit))
                     entries) +:+
        UpdateBigrams.footer /\
    (forall (unit : string) (placeholders : list string),
        length placeholders = 10%nat ->
        (length (kept_examples placeholders examples unit) <= 10)%nat /\
        (examples !! unit = None ->
         kept_examples placeholders examples unit = placeholders /\
         length (kept_examples placeholders examples unit) = 10%nat) /\
        (forall registered,
            examples !! unit = Some registered ->
            kept_examples placeholders examples unit = take 10 registered /\
            length (kept_examples placeholders examples unit)
              = Nat.min 10 (length registered)) /\
        (examples !! unit = Some [] ->
         forall constructor corpus_freq weight,
           exists before,
             ngram_lines constructor unit corpus_freq weight
                         (kept_examples placeholders examples unit)
             = before +:+ one_empty_example +:+ ")," +:+ nl)).
Proof.
  intros language source entries examples today.
  split; [| split].
  - rewrite trigram_generate_shape. do 2 f_equal. f_equal.
    apply map_ext. intros [[u cf] w]. apply trigram_entry_lines.
  - rewrite bigram_generate_shape. do 2 f_equal. f_equal.
    apply map_ext. intros [[u cf] w]. apply bigram_entry_lines.
  - intros unit placeholders Hlen. unfold kept_examples.
    split; [| split; [| split]].
    + destruct (examples !! unit); [rewrite length_take |]; lia.
    + intros ->. split; [reflexivity | exact Hlen].
    + intros registered ->. split; [reflexivity | apply length_take].
    + intros -> constructor corpus_freq weight.
      exists ("        // Corpus: " +:+ format_f corpus_freq 2 +:+ "%" +:+ nl +:+
              "        " +:+ constructor +:+ "::new(" +:+ dquote +:+ unit +:+ dquote +:+ ", "
              +:+ format_f weight 2 +:+ ", ").
      unfold ngram_lines, one_empty_example. rewrite !app_assoc. reflexivity.
Qed.

Lemma C8_emitted_examples_witness :
  let examples : gmap string (list string) := {["the" := eleven_examples]} in
  (length (replicate 10 "example") = 10%nat /\
   examples !! "the" = Some eleven_examples /\
   kept_examples (replicate 10 "example") examples "the" = take 10 eleven_examples) /\
  (examples !! "xyz" = None /\
   kept_examples (replicate 10 "example") examples "xyz" = replicate 10 "example").
Proof.
  intros examples.
  destruct (C8_emitted_examples "english" "Peter Norvig" [("the", f0_85, f1_00)]
                                examples jan_7) as (_ & _ & H).
  split.
  - split; [reflexivity |]. split; [reflexivity |].
    apply (H "the" (replicate 10 "example") eq_refl). reflexivity.
  - split; [reflexivity |].
    apply (H "xyz" (replicate 10 "example") eq_refl). reflexivity.
Defined.

(** C8 as stated fails: a unit registered with an empty list has no
    registered example, and neither emitter writes placeholders for it:
    both write a single empty string between the brackets. *)
Lemma C8_empty_registration_gets_no_placeholder :
  let examples : gmap string (list string) := {["the" := []]} in
  let trigram_text :=
    GenerateTrigrams.generate_rust_code "english" [("the", f0_85, f1_00)] examples jan_7 in
  let bigram_text :=
    UpdateBigrams.generate_rust_function "English" [("the", f0_85, f1_00)] examples
                                         "Peter Norvig" jan_7 in
  examples !! "the" = Some [] /\
  contains one_empty_example trigram_text = true /\
  contains "example" trigram_text = false /\
  contains one_empty_example bigram_text = true /\
  contains "ex0" bigram_text = false.
Proof. repeat split; vm_compute; reflexivity. Qed.

Lemma trigram_entry_ext (examples examples' : gmap string (list string)) t :
  examples !! t.1.1 = examples' !! t.1.1 ->
  GenerateTrigrams.entry examples t = GenerateTrigrams.entry examples' t.
Proof.
  destruct t as [[u cf] nf]. cbn [fst]. intros H.
  unfold GenerateTrigrams.entry, GenerateTrigrams.example_list. rewrite H. reflexivity.
Qed.

Lemma bigram_entry_ext (examples examples' : gmap string (list string)) t :
  examples !! t.1.1 = examples' !! t.1.1 ->
  UpdateBigrams.entry examples t = UpdateBigrams.entry examples' t.
Proof.
  destruct t as [[u cf] nf]. cbn [fst]. intros H.
  unfold UpdateBigrams.entry, UpdateBigrams.example_list. rewrite H. reflexivity.
Qed.

(** C9: the emitted text is a function of the weighted entries, of the
    examples registered for their units and of the date: two runs that
    agree on these give the same text, whatever else the two example sets
    hold. *)
Theorem C9_emitter_deterministic :
  forall (language source : string) (entries : list (string * float * float))
         (examples examples' : gmap string (list string)) (today today' : date),
    today = today' ->
    (forall entry, In entry entries -> examples !! entry.1.1 = examples' !! entry.1.1) ->
    GenerateTrigrams.generate_rust_code language entries examples today
      = GenerateTrigrams.generate_rust_code language entries examples' today' /\
    UpdateBigrams.generate_rust_function language entries examples source today
      = UpdateBigrams.generate_rust_function language entries examples' source today'.
Proof.
  intros language source entries examples examples' today today' <- Hsame.
  rewrite !trigram_generate_shape, !bigram_generate_shape.
  split; do 2 f_equal; f_equal; apply map_ext_in; intros t Ht;
    [apply trigram_entry_ext | apply bigram_entry_ext]; apply Hsame; exact Ht.
Qed.

Lemma C9_emitter_deterministic_witness :
  let examples : gmap string (list string) := {["the" := ["the"; "then"]]} in
  let examples' : gmap string (list string) := <["and" := ["hand"]]> examples in
  GenerateTrigrams.generate_rust_code "english" [("the", f0_85, f1_00)] examples jan_7
  = GenerateTrigrams.generate_rust_code "english" [("the", f0_85, f1_00)] examples' jan_7.
Proof.
  intros examples examples'.
  refine (proj1 (C9_emitter_deterministic "english" "Peter Norvig" [("the", f0_85, f1_00)]
                   examples examples' jan_7 jan_7 eq_refl _)).
  intros entry [<- | []]. vm_compute. reflexivity.
Defined.
End Emitter.

(** * Further properties of the scripts *)

Section MoreOnValidation.
Import PyFloat PyStr.

(** X1: the validator prints one warning for each example that does not
    contain the pattern (letters compared in lower case), in the order of
    the examples and naming example and pattern as given, and returns
    [True] exactly when every example contains it. *)
Theorem X1_validator_warns_exactly_the_failures :
  forall (pattern : string) (examples : list string),
    (GenerateTrigrams.validate_examples pattern examples).1
      = map (fun example => Warning example pattern)
            (List.filter (fun example => negb (contains (lower pattern) (lower example)))
                         examples) /\
    ((GenerateTrigrams.validate_examples pattern examples).2 = true <->
     forall example, In example examples -> contains (lower pattern) (lower example) = true).
Proof.
  intros pattern examples. rewrite validate_examples_spec. cbn [fst snd].
  split; [reflexivity |]. apply forallb_forall.
Qed.

Lemma validate_examples_flag_log pattern examples :
  (GenerateTrigrams.validate_examples pattern examples).2 = true <->
  (GenerateTrigrams.validate_examples pattern examples).1 = [].
Proof.
  rewrite validate_examples_spec. cbn [fst snd]. unfold containment_failures.
  induction examples as [| e l IH]; cbn [forallb List.filter]; [tauto |].
  destruct (contains (lower pattern) (lower e)); cbn [negb andb map]; [exact IH |].
  split; discriminate.
Qed.

Lemma validate_language_flag_log (top : list (string * float))
      (examples_of : gmap string (list string)) :
  (GenerateTrigrams.validate_language top examples_of).2 = true <->
  (GenerateTrigrams.validate_language top examples_of).1 = [].
Proof.
  rewrite validate_language_spec. cbn [fst snd].
  induction (slice_to top GenerateTrigrams.TRIGRAM_COUNT) as [| [u f] l IH];
    cbn [forallb flat_map]; [tauto |].
  rewrite andb_true_iff, IH, validate_examples_flag_log.
  split.
  - intros [-> ->]. reflexivity.
  - intros H. apply app_eq_nil in H. exact H.
Qed.

Lemma validate_language_log_warnings (top : list (string * float))
      (examples_of : gmap string (list string)) e :
  In e (GenerateTrigrams.validate_language top examples_of).1 -> is_warning e = true.
Proof.
  rewrite validate_language_spec. cbn [fst].
  induction (slice_to top GenerateTrigrams.TRIGRAM_COUNT) as [| [u f] l IH];
    cbn [flat_map]; [intros [] |].
  rewrite in_app_iff. intros [H | H]; [| exact (IH H)].
  rewrite validate_examples_spec in H. cbn [fst] in H.
  apply in_map_iff in H. destruct H as (x & <- & _). reflexivity.
Qed.

(** X2: generate_trigrams.py announces that all examples are valid
    exactly when it has printed no warning for either language; otherwise
    it announces that some are not. *)
Theorem X2_verdict_matches_warnings :
  forall (english french : list (string * float))
         (english_examples french_examples : gmap string (list string)),
    let log := trigram_validation_log english french english_examples french_examples in
    (In AllValid log <-> forall e, In e log -> is_warning e = false) /\
    (In SomeInvalid log <-> exists e, In e log /\ is_warning e = true) /\
    (In AllValid log \/ In SomeInvalid log).
Proof.
  intros english french english_examples french_examples. unfold trigram_validation_log.
  pose proof (validate_language_flag_log english english_examples) as He.
  pose proof (validate_language_flag_log french french_examples) as Hf.
  pose proof (validate_language_log_warnings english english_examples) as Hwe.
  pose proof (validate_language_log_warnings french french_examples) as Hwf.
  destruct (GenerateTrigrams.validate_language english english_examples) as [el ev].
  destruct (GenerateTrigrams.validate_language french french_examples) as [fl fv].
  cbn [fst snd] in *. cbv zeta.
  assert (Hcases : (ev && fv = true /\ el = [] /\ fl = []) \/
                   (ev && fv = false /\ exists e, In e (el ++ fl)%list /\ is_warning e = true)).
  { destruct ev, fv; cbn [andb].
    - left. split; [reflexivity |]. split; [apply He | apply Hf]; reflexivity.
    - right. split; [reflexivity |]. destruct fl as [| e fl]; [destruct Hf as [_ Hf]; discriminate (Hf eq_refl) |].
      exists e. split; [apply in_app_iff; right; left; reflexivity | apply Hwf; left; reflexivity].
    - right. split; [reflexivity |]. destruct el as [| e el]; [destruct He as [_ He]; discriminate (He eq_refl) |].
      exists e. split; [left; reflexivity | apply Hwe; left; reflexivity].
    - right. split; [reflexivity |]. destruct el as [| e el]; [destruct He as [_ He]; discriminate (He eq_refl) |].
      exists e. split; [left; reflexivity | apply Hwe; left; reflexivity]. }
  destruct Hcases as [(-> & -> & ->) | (-> & e & Hin & Hw)]; cbn [negb app].
  - split; [| split].
    + split; [intros _ e [<- | []]; reflexivity | intros _; left; reflexivity].
    + split; [intros [H | []]; discriminate H | intros (e & [<- | []] & H); discriminate H].
    + left. left. reflexivity.
  - split; [| split].
    + split.
      * intros H. rewrite List.app_assoc in H. apply in_app_iff in H.
        destruct H as [H | [H | []]]; [| discriminate H].
        assert (Hw' : is_warning AllValid = true)
          by (apply in_app_iff in H; destruct H as [H | H]; [apply Hwe | apply Hwf]; exact H).
        discriminate Hw'.
      * intros H. specialize (H e). rewrite List.app_assoc in H.
        rewrite H in Hw; [discriminate Hw | apply in_app_iff; left; exact Hin].
    + split.
      * intros _. exists e. split; [| exact Hw].
        rewrite List.app_assoc. apply in_app_iff. left. exact Hin.
      * intros _. rewrite List.app_assoc. apply in_app_iff. right. left. reflexivity.
    + right. rewrite List.app_assoc. apply in_app_iff. right. left. reflexivity.
Qed.
End MoreOnValidation.

Section MoreOnNormalizers.
Import PyFloat PyStr Weight.

Lemma literals_print_back_2 : literals_print_back 2 (digits 2 f0_70) (digits 2 f1_00) = true.
Proof. vm_compute. reflexivity. Qed.

Lemma literals_print_back_3 : literals_print_back 3 (digits 3 f0_70) (digits 3 f1_00) = true.
Proof. vm_compute. reflexivity. Qed.

Lemma literals_print_back_at nd lo hi k :
  literals_print_back nd lo hi = true -> lo <= k <= hi ->
  format_f (literal k (10 ^ nd)) nd = fixed_point false k nd.
Proof.
  unfold literals_print_back. intros H Hk. rewrite forallb_forall in H.
  apply String.eqb_eq, H, list_elem_of_In, elem_of_seqZ. lia.
Qed.

Lemma weights_of_In_inv {F} nd c (sel : list (string * F)) w :
  In w (weights_of nd c sel) ->
  exists (i : Z), 0 <= i < Z.of_nat (length sel) /\ w.2 = weight nd i c.
Proof.
  intros Hin. apply list_elem_of_In, list_elem_of_lookup in Hin. destruct Hin as [n Hn].
  rewrite weights_of_lookup in Hn.
  destruct (sel !! n) as [[u f] |] eqn:E; [| discriminate].
  injection Hn as <-. apply lookup_lt_Some in E.
  exists (Z.of_nat n). split; [lia | reflexivity].
Qed.

Lemma weights_of_entries {F} nd c (sel : list (string * F)) :
  map ranked_entry (weights_of nd c sel) = sel.
Proof.
  unfold weights_of, enumerate. generalize 0.
  induction sel as [| [u f] sel IH]; intros i; [reflexivity |].
  cbn [enumerate_from map]. rewrite IH. reflexivity.
Qed.

(** One weight of a window: its digits, its value and its text. *)
Lemma window_weight nd lo hi i c :
  1 <= nd -> lo = digits nd f0_70 -> hi = digits nd f1_00 ->
  literals_ordered nd lo hi = true -> literals_print_back nd lo hi = true ->
  0 <= i <= c -> 0 < c ->
  exists k, lo <= k <= hi /\
            weight nd i c = literal k (10 ^ nd) /\
            format_f (weight nd i c) nd = fixed_point false k nd /\
            le (literal lo (10 ^ nd)) (weight nd i c) = true /\
            le (weight nd i c) (literal hi (10 ^ nd)) = true.
Proof.
  intros Hnd -> -> Hord Hback Hi Hc.
  destruct (weight_literal nd i c Hnd Hi Hc) as [Hw Hk].
  exists (digits nd (interpolate (quotient i c))). split; [exact Hk |].
  split; [exact Hw |]. rewrite Hw.
  split; [apply (literals_print_back_at nd _ _ _ Hback Hk) |].
  split; apply (literals_ordered_le nd _ _ _ _ Hord); lia.
Qed.

(** X4: every weight that a normaliser returns for a target count
    [N > 1] (500 in the word script) lies between 0.70 and 1.00, is the
    double nearest to a decimal with two places (three in the word script)
    and is printed by the emitter as that decimal. *)
Theorem X4_weights_stay_in_range :
  forall (F : Type) (l : list (string * F)) (N : Z)
         (r : list (string * F * float)) (w : string * F * float),
    In w r ->
    (FetchCommonWords.normalize_frequencies l = Ok r ->
     le f0_70 w.2 = true /\ le w.2 f1_00 = true /\
     exists k, 700 <= k <= 1000 /\ w.2 = literal k 1000 /\
               format_f w.2 3 = fixed_point false k 3) /\
    (1 < N ->
     GenerateTrigrams.normalize_frequencies l N = Ok r \/
     UpdateBigrams.normalize_frequencies l N = Ok r ->
     le f0_70 w.2 = true /\ le w.2 f1_00 = true /\
     exists k, 70 <= k <= 100 /\ w.2 = literal k 100 /\
               format_f w.2 2 = fixed_point false k 2).
Proof.
  intros F l N r w Hin. split.
  - rewrite fetch_normalize. intros [= <-].
    apply weights_of_In_inv in Hin. destruct Hin as (i & Hi & ->).
    pose proof (slice_to_length l 500 ltac:(lia)).
    destruct (window_weight 3 700 1000 i 499 ltac:(lia) ltac:(by_computation)
                ltac:(by_computation) literals_ordered_3 literals_print_back_3
                ltac:(lia) ltac:(lia)) as (k & Hk & Hw & Hf & Hlo & Hhi).
    split; [exact Hlo |]. split; [exact Hhi |]. exists k. repeat split; try lia; assumption.
  - intros HN Hr.
    assert (Hr' : r = weights_of 2 (N - 1) (slice_to l N)).
    { destruct Hr as [Hr | Hr];
        [rewrite trigram_normalize in Hr by lia | rewrite bigram_normalize in Hr by lia];
        injection Hr as <-; reflexivity. }
    subst r. apply weights_of_In_inv in Hin. destruct Hin as (i & Hi & ->).
    pose proof (slice_to_length l N ltac:(lia)).
    destruct (window_weight 2 70 100 i (N - 1) ltac:(lia) ltac:(by_computation)
                ltac:(by_computation) literals_ordered_2 literals_print_back_2
                ltac:(lia) ltac:(lia)) as (k & Hk & Hw & Hf & Hlo & Hhi).
    split; [exact Hlo |]. split; [exact Hhi |]. exists k. repeat split; try lia; assumption.
Qed.

Lemma X4_weights_stay_in_range_witness :
  In ("of", 50, f0_85) [("the", 100, f1_00); ("of", 50, f0_85); ("and", 10, f0_70)] /\
  1 < 3 /\
  GenerateTrigrams.normalize_frequencies three_words 3
    = Ok [("the", 100, f1_00); ("of", 50, f0_85); ("and", 10, f0_70)] /\
  le f0_70 f0_85 = true /\ le f0_85 f1_00 = true.
Proof.
  assert (Hin : In ("of", 50, f0_85)
                   [("the", 100, f1_00); ("of", 50, f0_85); ("and", 10, f0_70)])
    by (right; left; reflexivity).
  assert (H : GenerateTrigrams.normalize_frequencies three_words 3
              = Ok [("the", 100, f1_00); ("of", 50, f0_85); ("and", 10, f0_70)])
    by (vm_compute; reflexivity).
  split; [exact Hin |]. split; [lia |]. split; [exact H |].
  destruct (X4_weights_stay_in_range Z three_words 3 _ _ Hin) as [_ Hn].
  destruct (Hn ltac:(lia) (or_introl H)) as (Hlo & Hhi & _).
  split; [exact Hlo | exact Hhi].
Defined.

Lemma trigram_no_zero_division {F} (l : list (string * F)) (N : Z) :
  N <> 1 -> GenerateTrigrams.normalize_frequencies l N <> Raise ZeroDivisionError.
Proof.
  intros HN H. apply for_each_Raise in H. destruct H as ([i [u f]] & _ & H).
  destruct (int_true_div i (N - 1)) as [q | e] eqn:Hq; [discriminate |].
  cbn in H. injection H as ->. apply int_true_div_ZeroDivisionError in Hq. lia.
Qed.

(** X5: the trigram normaliser divides by zero exactly when the target
    count is 1 and the list is not empty. *)
Theorem X5_trigram_zero_division :
  forall (F : Type) (l : list (string * F)) (N : Z),
    GenerateTrigrams.normalize_frequencies l N = Raise ZeroDivisionError <->
    N = 1 /\ l <> [].
Proof.
  intros F l N. split.
  - intros H. destruct (Z.eq_dec N 1) as [-> | HN].
    + split; [reflexivity |]. intros ->. discriminate H.
    + exfalso. exact (trigram_no_zero_division l N HN H).
  - intros [-> Hl]. destruct l as [| [u f] rest]; [congruence |]. apply trigram_count_one.
Qed.

(** X6: the normalisers keep the entries of the window, in their order,
    and only add the weight: the word normaliser for the first 500 entries
    and the bigram normaliser for the slice [list[:N]] never raise, and the
    trigram normaliser does the same for every target count [N > 1]. *)
Theorem X6_normalisers_keep_the_window :
  forall (F : Type) (l : list (string * F)) (N : Z),
    (exists r, FetchCommonWords.normalize_frequencies l = Ok r /\
               map ranked_entry r = take 500 l) /\
    (exists r, UpdateBigrams.normalize_frequencies l N = Ok r /\
               map ranked_entry r = slice_to l N) /\
    (1 < N ->
     exists r, GenerateTrigrams.normalize_frequencies l N = Ok r /\
               map ranked_entry r = slice_to l N /\
               length r = Nat.min (Z.to_nat N) (length l)).
Proof.
  intros F l N. split; [| split].
  - eexists. split; [apply fetch_normalize |]. apply weights_of_entries.
  - destruct (Z_lt_le_dec 1 N) as [HN | HN].
    + eexists. split; [apply bigram_normalize; exact HN |]. apply weights_of_entries.
    + eexists. split; [apply bigram_normalize_flat; exact HN |].
      rewrite map_map. induction (slice_to l N) as [| [u f] s IH]; [reflexivity |].
      cbn [map]. rewrite IH. reflexivity.
  - intros HN. eexists. split; [apply trigram_normalize; exact HN |].
    split; [apply weights_of_entries |].
    rewrite weights_of_length. unfold slice_to.
    destruct (Z.leb_spec 0 N); [| lia]. apply length_take.
Qed.

Lemma X6_normalisers_keep_the_window_witness :
  1 < 2 /\
  exists r, GenerateTrigrams.normalize_frequencies three_words 2 = Ok r /\
            map ranked_entry r = [("the", 100); ("of", 50)].
Proof.
  split; [lia |].
  destruct (X6_normalisers_keep_the_window Z three_words 2) as (_ & _ & H).
  destruct (H ltac:(lia)) as (r & Hr & He & _).
  exists r. split; [exact Hr | exact He].
Defined.
End MoreOnNormalizers.

Section MoreOnEmission.
Import PyFloat PyStr Weight.

Lemma replace_from_cons old new c w :
  replace_from 0 old new (String c w)
  = if String.prefix old (String c w)
    then new +:+ replace_from (String.length old - 1) old new w
    else String c (replace_from 0 old new w).
Proof. reflexivity. Qed.

Lemma prefix_dquote c w :
  String.prefix dquote (String c w) = Ascii.eqb c "034".
Proof.
  unfold dquote. cbn [String.prefix].
  destruct (ascii_dec "034" c) as [<- | Hne].
  - rewrite prefix_nil. reflexivity.
  - symmetry. apply Ascii.eqb_neq. congruence.
Qed.

Lemma escape_cons c w :
  replace_from 0 dquote (backslash +:+ dquote) (String c w)
  = if Ascii.eqb c "034"
    then String "092" (String "034" (replace_from 0 dquote (backslash +:+ dquote) w))
    else String c (replace_from 0 dquote (backslash +:+ dquote) w).
Proof. rewrite replace_from_cons, prefix_dquote. reflexivity. Qed.

Lemma escape_quotes_follow word : forall after_backslash,
  quotes_follow_backslashes after_backslash
    (replace_from 0 dquote (backslash +:+ dquote) word) = true.
Proof.
  induction word as [| c w IH]; intros b; [reflexivity |].
  rewrite escape_cons. destruct (Ascii.eqb c "034") eqn:Hc.
  - cbn [quotes_follow_backslashes]. change (Ascii.eqb "092" "034") with false.
    change (Ascii.eqb "092" "092") with true. change (Ascii.eqb "034" "034") with true.
    change (Ascii.eqb "034" "092") with false. cbn [negb orb andb]. apply IH.
  - cbn [quotes_follow_backslashes]. rewrite Hc. cbn [negb orb andb]. apply IH.
Qed.

Lemma escape_without_quote word :
  has_quote word = false -> replace_from 0 dquote (backslash +:+ dquote) word = word.
Proof.
  induction word as [| c w IH]; [reflexivity |].
  cbn [has_quote]. intros H. apply orb_false_iff in H. destruct H as [Hc Hw].
  rewrite escape_cons, Hc, (IH Hw). reflexivity.
Qed.

(** X7: in the line that the word emitter writes for a word, every
    double quote of the word comes directly after a backslash, and a word
    without a double quote is written as it is. *)
Theorem X7_word_emitter_escapes_quotes :
  forall (F : Type) (word : string) (freq : F) (weight : float),
  exists escaped,
    FetchCommonWords.entry (word, freq, weight)
      = "        Word::new(" +:+ dquote +:+ escaped +:+ dquote +:+ ", " +:+
        format_f weight 3 +:+ ")," +:+ nl /\
    quotes_follow_backslashes false escaped = true /\
    (has_quote word = false -> escaped = word).
Proof.
  intros F word freq weight.
  exists (replace_from 0 dquote (backslash +:+ dquote) word).
  split; [reflexivity |]. split; [apply escape_quotes_follow | apply escape_without_quote].
Qed.

Lemma X7_word_emitter_escapes_quotes_witness :
  has_quote "the" = false /\
  FetchCommonWords.entry ("the", 7, f1_00)
    = "        Word::new(" +:+ dquote +:+ "the" +:+ dquote +:+ ", 1.000)," +:+ nl.
Proof.
  split; [reflexivity |].
  destruct (X7_word_emitter_escapes_quotes Z "the" 7 f1_00) as (escaped & -> & _ & H).
  rewrite (H eq_refl). reflexivity.
Defined.

Lemma item_empty {A} (i : Z) : item (@nil A) i = Raise IndexError.
Proof. unfold item. cbn [length]. destruct (0 <=? i); destruct ((0 <=? _) && _); reflexivity. Qed.

Lemma item_first_last {A} (l : list A) :
  l <> [] -> (exists a, item l 0 = Ok a) /\ (exists b, item l (-1) = Ok b).
Proof.
  intros Hl. assert (Hlen : (0 < length l)%nat) by (destruct l; [congruence | cbn; lia]).
  unfold item. split.
  - change (0 <=? 0) with true. cbv iota. change (Z.to_nat 0) with 0%nat.
    destruct (Z.ltb_spec 0 (Z.of_nat (length l))); [| lia]. cbn [andb].
    destruct (lookup_lt_is_Some_2 l 0%nat Hlen) as [a Ha]. rewrite Ha. exists a. reflexivity.
  - change (0 <=? -1) with false. cbv iota.
    destruct (Z.leb_spec 0 (Z.of_nat (length l) + -1)); [| lia].
    destruct (Z.ltb_spec (Z.of_nat (length l) + -1) (Z.of_nat (length l))); [| lia].
    cbn [andb].
    destruct (lookup_lt_is_Some_2 l (Z.to_nat (Z.of_nat (length l) + -1)) ltac:(lia))
      as [b Hb].
    rewrite Hb. exists b. reflexivity.
Qed.

Lemma fetch_window_empty {F} (l : list (string * F)) :
  weights_of 3 499 (slice_to l 500) = [] <-> l = [].
Proof.
  split.
  - intros H. apply (f_equal length) in H. rewrite weights_of_length in H.
    destruct l; [reflexivity | discriminate H].
  - intros ->. reflexivity.
Qed.

(** X8: [main] of fetch_common_words.py raises an IndexError exactly
    when one of the two tables is empty (the summary reads the first and
    the last weight); otherwise it prints the code of the English words,
    then that of the French words, generated from the normalised lists. *)
Theorem X8_word_main :
  forall (english french : list (string * Z)),
    (FetchCommonWords.main english french = Raise IndexError <->
     english = [] \/ french = []) /\
    (english <> [] -> french <> [] ->
     exists english_normalized french_normalized,
       FetchCommonWords.normalize_frequencies english = Ok english_normalized /\
       FetchCommonWords.normalize_frequencies french = Ok french_normalized /\
       FetchCommonWords.main english french
         = Ok [Code (FetchCommonWords.generate_rust_code "english" english_normalized);
               Code (FetchCommonWords.generate_rust_code "french" french_normalized)]).
Proof.
  intros english french.
  set (E := weights_of 3 499 (slice_to english 500)).
  set (Fr := weights_of 3 499 (slice_to french 500)).
  assert (Hmain : FetchCommonWords.main english french
                  = (_ ← item E 0; _ ← item E (-1); _ ← item Fr 0; _ ← item Fr (-1);
                     Ok [Code (FetchCommonWords.generate_rust_code "english" E);
                         Code (FetchCommonWords.generate_rust_code "french" Fr)])).
  { unfold FetchCommonWords.main. rewrite !fetch_normalize. cbn [mbind result_bind].
    reflexivity. }
  assert (HE : english <> [] -> (exists a, item E 0 = Ok a) /\ (exists b, item E (-1) = Ok b))
    by (intros H; apply item_first_last; unfold E; rewrite fetch_window_empty; exact H).
  assert (HF : french <> [] -> (exists a, item Fr 0 = Ok a) /\ (exists b, item Fr (-1) = Ok b))
    by (intros H; apply item_first_last; unfold Fr; rewrite fetch_window_empty; exact H).
  assert (HE0 : english = [] -> item E 0 = Raise IndexError)
    by (intros ->; reflexivity).
  assert (HF0 : french = [] -> item Fr 0 = Raise IndexError)
    by (intros ->; reflexivity).
  rewrite Hmain. clear Hmain.
  split; [split |].
  - intros H. destruct english as [| e english']; [left; reflexivity |].
    destruct french as [| f french']; [right; reflexivity |].
    destruct (HE ltac:(discriminate)) as [[a Ha] [b Hb]].
    destruct (HF ltac:(discriminate)) as [[a' Ha'] [b' Hb']].
    rewrite Ha, Hb, Ha', Hb' in H. discriminate H.
  - intros [He | Hf].
    + rewrite (HE0 He). reflexivity.
    + destruct english as [| e english']; [rewrite (HE0 eq_refl); reflexivity |].
      destruct (HE ltac:(discriminate)) as [[a Ha] [b Hb]].
      rewrite Ha, Hb, (HF0 Hf). reflexivity.
  - intros He Hf. exists E, Fr.
    split; [apply fetch_normalize |]. split; [apply fetch_normalize |].
    destruct (HE He) as [[a Ha] [b Hb]]. destruct (HF Hf) as [[a' Ha'] [b' Hb']].
    rewrite Ha, Hb, Ha', Hb'. reflexivity.
Qed.

Lemma X8_word_main_witness :
  three_words <> [] /\
  exists english_code french_code,
    FetchCommonWords.main three_words three_words = Ok [Code english_code; Code french_code].
Proof.
  split; [discriminate |].
  destruct (X8_word_main three_words three_words) as [_ H].
  destruct (H ltac:(discriminate) ltac:(discriminate)) as (en & fr & _ & _ & Hm).
  eexists _, _. exact Hm.
Defined.

Lemma bigram_main_shape english french english_examples french_examples today :
  UpdateBigrams.main english french english_examples french_examples today
  = ([Code (UpdateBigrams.generate_rust_function
              "English" (weights_of 2 39 (slice_to english 40)) english_examples
              "Peter Norvig (http://norvig.com/mayzner.html)" today);
      Code (UpdateBigrams.generate_rust_function
              "French" (weights_of 2 39 (slice_to french 40)) french_examples
              "Lexique database & French corpus studies" today)],
     Ok tt).
Proof.
  unfold UpdateBigrams.main. rewrite !bigram_normalize by reflexivity. reflexivity.
Qed.

(** X9: [main] of update_bigrams.py never fails: it prints the function
    of the English bigrams, then that of the French ones, each generated
    from the first 40 entries of its table, and an example among the first
    ten registered for a bigram of those 40 is in the printed function,
    whether it contains the bigram or not. *)
Theorem X9_bigram_main :
  forall (english french : list (string * float))
         (english_examples french_examples : gmap string (list string)) (today : date),
  exists english_normalized french_normalized,
    UpdateBigrams.normalize_frequencies english UpdateBigrams.BIGRAM_COUNT
      = Ok english_normalized /\
    UpdateBigrams.normalize_frequencies french UpdateBigrams.BIGRAM_COUNT
      = Ok french_normalized /\
    map ranked_entry english_normalized = take 40 english /\
    map ranked_entry french_normalized = take 40 french /\
    UpdateBigrams.main english french english_examples french_examples today
      = ([Code (UpdateBigrams.generate_rust_function
                  "English" english_normalized english_examples
                  "Peter Norvig (http://norvig.com/mayzner.html)" today);
          Code (UpdateBigrams.generate_rust_function
                  "French" french_normalized french_examples
                  "Lexique database & French corpus studies" today)],
         Ok tt) /\
    (forall unit freq registered example,
        In (unit, freq) (take 40 english) ->
        english_examples !! unit = Some registered ->
        In example (take 10 registered) ->
        contains example (UpdateBigrams.generate_rust_function
                            "English" english_normalized english_examples
                            "Peter Norvig (http://norvig.com/mayzner.html)" today) = true).
Proof.
  intros english french english_examples french_examples today.
  exists (weights_of 2 39 (slice_to english 40)), (weights_of 2 39 (slice_to french 40)).
  split; [apply bigram_normalize; reflexivity |].
  split; [apply bigram_normalize; reflexivity |].
  split; [apply weights_of_entries |]. split; [apply weights_of_entries |].
  split; [apply bigram_main_shape |].
  intros unit freq registered example Hin Hreg Hex.
  destruct (weights_of_In 2 39 (slice_to english 40) unit freq Hin) as [w Hw].
  apply (bigram_code_contains _ _ _ _ _ unit freq w); [exact Hw |].
  unfold UpdateBigrams.example_list. rewrite Hreg. exact Hex.
Qed.

Lemma X9_bigram_main_witness :
  let examples : gmap string (list string) := {["et" := et_examples]} in
  exists english_normalized,
    UpdateBigrams.normalize_frequencies [("et", f0_85)] UpdateBigrams.BIGRAM_COUNT
      = Ok english_normalized /\
    contains "pouvoir" (UpdateBigrams.generate_rust_function
                          "English" english_normalized examples
                          "Peter Norvig (http://norvig.com/mayzner.html)" jan_7) = true.
Proof.
  intros examples.
  destruct (X9_bigram_main [("et", f0_85)] [] examples ∅ jan_7)
    as (en & fr & Hen & _ & _ & _ & _ & Hin).
  exists en. split; [exact Hen |].
  apply (Hin "et" f0_85 et_examples "pouvoir");
    [left; reflexivity | reflexivity | do 5 right; left; reflexivity].
Defined.

Lemma lower_char_idempotent c : lower_char (lower_char c) = lower_char c.
Proof. destruct c as [[] [] [] [] [] [] [] []]; reflexivity. Qed.

Lemma lower_idempotent s : lower (lower s) = lower s.
Proof.
  induction s as [| c s IH]; [reflexivity |].
  cbn [lower]. rewrite lower_char_idempotent, IH. reflexivity.
Qed.

(** X10: the verdict of the validator depends on the pattern and on the
    examples only through their lower-case forms; in particular it is the
    same for the lower-case pattern and examples. *)
Theorem X10_validator_ignores_case :
  forall (pattern pattern' : string) (examples examples' : list string),
    lower pattern = lower pattern' ->
    map lower examples = map lower examples' ->
    (GenerateTrigrams.validate_examples pattern examples).2
    = (GenerateTrigrams.validate_examples pattern' examples').2 /\
    (GenerateTrigrams.validate_examples (lower pattern) (map lower examples)).2
    = (GenerateTrigrams.validate_examples pattern examples).2.
Proof.
  intros pattern pattern' examples examples' Hp He.
  assert (Hflag : forall p l,
             (GenerateTrigrams.validate_examples p l).2
             = forallb (contains (lower p)) (map lower l)).
  { intros p l. rewrite validate_examples_spec. cbn [snd].
    induction l as [| e l IH]; [reflexivity |]. cbn [forallb map]. rewrite IH. reflexivity. }
  rewrite !Hflag. split.
  - rewrite Hp, He. reflexivity.
  - rewrite lower_idempotent, map_map.
    f_equal. apply map_ext. intros e. apply lower_idempotent.
Qed.

Lemma X10_validator_ignores_case_witness :
  (lower "TH" = lower "th" /\ map lower ["The"; "CAT"] = map lower ["the"; "cat"]) /\
  (GenerateTrigrams.validate_examples "TH" ["The"; "CAT"]).2
  = (GenerateTrigrams.validate_examples "th" ["the"; "cat"]).2.
Proof.
  split; [split; reflexivity |].
  apply (X10_validator_ignores_case "TH" "th" ["The"; "CAT"] ["the"; "cat"]); reflexivity.
Defined.
End MoreOnEmission.
